(** * The restaurant order service of [main.py]

    A shallow embedding of the Flask application: the [Order] model, the
    table it is mapped to, the unit-of-work session the handlers drive
    ([add], [delete], [commit], [rollback]) and the four route handlers.

    The handlers talk to the storage through [db.session] and
    [Order.query].  The storage is the SQLite file named at line 9 and the
    table is the one declared by the columns at lines 24-27: an [INTEGER]
    primary key declared without the AUTOINCREMENT keyword and three
    [NOT NULL] columns.  The part of the engine the handlers exercise is
    written out below ([sql_insert], [sql_get], [sql_delete]).

    A rendered page is represented by the name of its template together
    with the context handed to [render_template].  Whether the storage
    can be read and whether a template renders is part of the world a
    request runs in. *)

From Stdlib Require Import ZArith List String Bool Lia Permutation.
Import ListNotations.
Open Scope string_scope.
Open Scope list_scope.
Open Scope Z_scope.

(** ** Values and the [Order] model *)

(** The Python values the handlers hand to a template:
    [Optional[str | int]] (line 101). *)
Inductive value : Type :=
| VNone
| VInt (n : Z)
| VStr (s : string).

Definition of_int (x : option Z) : value :=
  match x with Some n => VInt n | None => VNone end.

Definition of_str (x : option string) : value :=
  match x with Some s => VStr s | None => VNone end.

(** An [Order] instance (lines 13-27).  Every attribute may be [None] on
    the Python side: [id] until the row is written, the others when the
    constructor is given [None]. *)
Record Order : Type := mkOrder {
  id : option Z;
  customer_name : option string;
  table_number : option Z;
  orders : option string
}.

(** [Order.__iter__] (lines 29-39): the pairs it yields, in order. *)
Definition Order_iter (self : Order) : list (string * value) :=
  [ ("id", of_int (id self));
    ("customer_name", of_str (customer_name self));
    ("table_number", of_int (table_number self));
    ("orders", of_str (orders self)) ].

(** A Python [dict]: keys in insertion order; assigning to a key that is
    present replaces its value in place. *)
Definition pydict : Type := list (string * value).

Fixpoint dict_set (k : string) (v : value) (d : pydict) : pydict :=
  match d with
  | [] => [(k, v)]
  | (k', v') :: d' =>
      if String.eqb k k' then (k', v) :: d' else (k', v') :: dict_set k v d'
  end.

(** [dict(iterable_of_pairs)]. *)
Definition dict (pairs : list (string * value)) : pydict :=
  fold_left (fun d kv => dict_set (fst kv) (snd kv) d) pairs [].

(** ** The table *)

(** A row of table [order].  The rowid is always an integer; the other
    columns hold what was bound to them. *)
Record Row : Type := mkRow {
  row_id : Z;
  row_customer_name : option string;
  row_table_number : option Z;
  row_orders : option string
}.

(** Loading a row into an instance. *)
Definition Order_of_row (r : Row) : Order :=
  mkOrder (Some (row_id r)) (row_customer_name r) (row_table_number r)
          (row_orders r).

(** Largest rowid: SQLite integers are 64-bit signed. *)
Definition MAX_ROWID : Z := 9223372036854775807.

Definition fits_int64 (n : Z) : bool :=
  (- MAX_ROWID - 1 <=? n) && (n <=? MAX_ROWID).

Definition rowids (t : list Row) : list Z := map row_id t.

Definition rowid_used (i : Z) (t : list Row) : bool :=
  existsb (Z.eqb i) (rowids t).

(** The largest rowid of a table that has rows. *)
Fixpoint max_rowid (t : list Row) : Z :=
  match t with
  | [] => 0
  | r :: t' =>
      match t' with
      | [] => row_id r
      | _ :: _ => Z.max (row_id r) (max_rowid t')
      end
  end.

(** Exceptions that reach the handlers.  An exception carries the text
    that [str()] gives it.  For the errors of the database driver that the
    ORM wraps ([IntegrityError], [OperationalError]) this is the ORM's
    text: the message of the driver set into the ORM's frame (the class of
    the error in front, the statement, its parameters and a link behind),
    which [env_text] below stands for. *)
Inductive Exn : Type :=
| NotFound                                (* abort(404) *)
| IntegrityError (msg : string)
| OperationalError (msg : string)
| OverflowError (msg : string)
| InvalidRequestError (msg : string)
| TemplateError (msg : string).

(** [str(e)], as interpolated by the f-strings at lines 82 and 124: the
    text the exception carries. *)
Definition str (e : Exn) : string :=
  match e with
  | NotFound => "404 Not Found"
  | IntegrityError m => m
  | OperationalError m => m
  | OverflowError m => m
  | InvalidRequestError m => m
  | TemplateError m => m
  end.

(** What the surroundings decide for one request: whether the engine fails
    for a reason of its own (locked or unavailable file, full disk), at the
    first write or at COMMIT, with the text of the exception raised; the
    candidates the engine draws when it has to pick a rowid at random; and
    the text the ORM gives to an error of the driver, from the message of
    the driver. *)
Inductive Fault : Type :=
| NoFault
| FaultAtWrite (msg : string)
| FaultAtCommit (msg : string).

Record Env : Type := mkEnv {
  env_fault : Fault;
  env_random : list Z;
  env_text : string -> string
}.

(** The rowid of a row inserted without one.  The column is an
    [INTEGER PRIMARY KEY] without AUTOINCREMENT: 1 in an empty table, else
    one more than the largest rowid in the table; when that is the largest
    integer, the first unused candidate among (at most 100) random ones. *)
Definition new_rowid (random : list Z) (t : list Row) : option Z :=
  match t with
  | [] => Some 1
  | _ :: _ =>
      let m := max_rowid t in
      if m <? MAX_ROWID then Some (m + 1)
      else find (fun c => (1 <=? c) && (c <=? MAX_ROWID)
                          && negb (rowid_used c t))
                (firstn 100 random)
  end.

(** Rows are kept in rowid order, the order a scan returns them in. *)
Fixpoint insert_row (r : Row) (t : list Row) : list Row :=
  match t with
  | [] => [r]
  | x :: t' =>
      if row_id r <? row_id x then r :: x :: t' else x :: insert_row r t'
  end.

Definition overflow_msg : string :=
  "Python int too large to convert to SQLite INTEGER".

(** Binding a Python int to a statement parameter. *)
Definition bind_int (n : Z) : Exn + Z :=
  if fits_int64 n then inr n else inl (OverflowError overflow_msg).

Definition bind_opt_int (x : option Z) : Exn + unit :=
  match x with
  | Some n => match bind_int n with inl e => inl e | inr _ => inr tt end
  | None => inr tt
  end.

Definition not_null {A : Type} (text : string -> string) (column : string)
    (x : option A) : Exn + unit :=
  match x with
  | Some _ => inr tt
  | None =>
      inl (IntegrityError
             (text ("NOT NULL constraint failed: order." ++ column)%string))
  end.

(** [INSERT INTO "order" (customer_name, table_number, orders) VALUES
    (?, ?, ?)]: the parameters are bound, a rowid is chosen, the NOT NULL
    columns are checked in column order, the row is written. *)
Definition sql_insert (random : list Z) (text : string -> string)
    (cn : option string) (tn : option Z) (os : option string)
    (t : list Row) : Exn + (Z * list Row) :=
  match bind_opt_int tn with
  | inl e => inl e
  | inr _ =>
      match new_rowid random t with
      | None => inl (OperationalError (text "database or disk is full"))
      | Some i =>
          match not_null text "customer_name" cn with
          | inl e => inl e
          | inr _ =>
              match not_null text "table_number" tn with
              | inl e => inl e
              | inr _ =>
                  match not_null text "orders" os with
                  | inl e => inl e
                  | inr _ => inr (i, insert_row (mkRow i cn tn os) t)
                  end
              end
          end
      end
  end.

(** [INSERT] with the rowid given. *)
Definition sql_insert_with_id (text : string -> string) (i : Z)
    (cn : option string) (tn : option Z) (os : option string)
    (t : list Row) : Exn + (Z * list Row) :=
  match bind_int i with
  | inl e => inl e
  | inr _ =>
      match bind_opt_int tn with
      | inl e => inl e
      | inr _ =>
          match not_null text "customer_name" cn with
          | inl e => inl e
          | inr _ =>
              match not_null text "table_number" tn with
              | inl e => inl e
              | inr _ =>
                  match not_null text "orders" os with
                  | inl e => inl e
                  | inr _ =>
                      if rowid_used i t
                      then inl (IntegrityError
                                  (text "UNIQUE constraint failed: order.id"))
                      else inr (i, insert_row (mkRow i cn tn os) t)
                  end
              end
          end
      end
  end.

(** [SELECT ... FROM "order" WHERE id = ?]. *)
Definition sql_get (i : Z) (t : list Row) : Exn + option Row :=
  match bind_int i with
  | inl e => inl e
  | inr _ => inr (find (fun r => row_id r =? i) t)
  end.

(** [DELETE FROM "order" WHERE id = ?]. *)
Definition sql_delete (i : Z) (t : list Row) : Exn + list Row :=
  match bind_int i with
  | inl e => inl e
  | inr _ => inr (filter (fun r => negb (row_id r =? i)) t)
  end.

(** ** The request world and its monad *)

(** The state a handler works on: the committed table, the working copy
    of an open transaction, and what the session has been asked to write
    ([db.session.add]) and to remove ([db.session.delete]).  Two more
    fields say what the surroundings do to the request throughout: the
    text of the exception a SELECT ends in when the storage cannot be
    read, and the text of the exception [render_template] ends in when
    the template cannot be rendered. *)
Record World : Type := mkWorld {
  table : list Row;
  txn : option (list Row);
  session_new : list Order;
  session_deleted : list Order;
  reading : option string;
  rendering : option string
}.

(** A computation may raise; the world it leaves behind is kept. *)
Definition M (A : Type) : Type := World -> (Exn + A) * World.

Definition ret {A : Type} (a : A) : M A := fun w => (inr a, w).

Definition raise {A : Type} (e : Exn) : M A := fun w => (inl e, w).

Definition bind {A B : Type} (m : M A) (k : A -> M B) : M B :=
  fun w =>
    match m w with
    | (inl e, w') => (inl e, w')
    | (inr a, w') => k a w'
    end.

Declare Scope m_scope.
Delimit Scope m_scope with M.
Notation "x <- m ;; k" := (bind m (fun x => k))
  (at level 100, m at next level, right associativity) : m_scope.
Notation "m ;; k" := (bind m (fun _ => k))
  (at level 100, right associativity) : m_scope.
Open Scope m_scope.

(** [try: body / except Exception as e: return handler(e)] followed by
    [rest], which runs only when [body] raised nothing. *)
Definition try_except {A : Type} (body : M unit) (handler : Exn -> M A)
    (rest : M A) : M A :=
  fun w =>
    match body w with
    | (inl e, w') => handler e w'
    | (inr _, w') => rest w'
    end.

(** The table as the open transaction sees it. *)
Definition visible (w : World) : list Row :=
  match txn w with Some t => t | None => table w end.

Definition set_txn (t : option (list Row)) (w : World) : World :=
  mkWorld (table w) t (session_new w) (session_deleted w)
          (reading w) (rendering w).

(** Lifting a statement to the working copy of the transaction. *)
Definition statement {A : Type} (f : list Row -> Exn + (A * list Row))
  : M A :=
  fun w =>
    match f (visible w) with
    | inl e => (inl e, w)
    | inr (a, t') => (inr a, set_txn (Some t') w)
    end.

(** The first write of a transaction takes the write lock. *)
Definition begin_write (env : Env) : M unit :=
  fun w =>
    match txn w with
    | Some _ => (inr tt, w)
    | None =>
        match env_fault env with
        | FaultAtWrite m => (inl (OperationalError m), w)
        | _ => (inr tt, set_txn (Some (table w)) w)
        end
    end.

(** ** The session *)

Definition session_add (o : Order) : M unit :=
  fun w =>
    (inr tt,
     mkWorld (table w) (txn w) (session_new w ++ [o]) (session_deleted w)
             (reading w) (rendering w)).

Definition session_delete (o : Order) : M unit :=
  fun w =>
    (inr tt,
     mkWorld (table w) (txn w) (session_new w) (session_deleted w ++ [o])
             (reading w) (rendering w)).

Definition flush_insert (env : Env) (o : Order) : M unit :=
  begin_write env ;;
  match id o with
  | None =>
      statement (sql_insert (env_random env) (env_text env)
                   (customer_name o) (table_number o) (orders o)) ;;
      ret tt
  | Some i =>
      statement (sql_insert_with_id (env_text env) i
                   (customer_name o) (table_number o) (orders o)) ;;
      ret tt
  end.

Definition flush_delete (env : Env) (o : Order) : M unit :=
  match id o with
  | None => raise (InvalidRequestError "Instance is not persisted")
  | Some i =>
      begin_write env ;;
      statement (fun t => match sql_delete i t with
                          | inl e => inl e
                          | inr t' => inr (tt, t')
                          end)
  end.

Fixpoint for_each {A : Type} (f : A -> M unit) (l : list A) : M unit :=
  match l with
  | [] => ret tt
  | x :: l' => f x ;; for_each f l'
  end.

(** The unit of work: inserts first, then deletes. *)
Definition session_flush (env : Env) : M unit :=
  fun w =>
    (for_each (flush_insert env) (session_new w) ;;
     for_each (flush_delete env) (session_deleted w)) w.

(** [db.session.commit()]: flush, then COMMIT.  A failure leaves the
    transaction open and the committed table as it was. *)
Definition session_commit (env : Env) : M unit :=
  session_flush env ;;
  fun w =>
    match txn w with
    | None =>
        (inr tt, mkWorld (table w) None [] [] (reading w) (rendering w))
    | Some t =>
        match env_fault env with
        | FaultAtCommit m => (inl (OperationalError m), w)
        | _ => (inr tt, mkWorld t None [] [] (reading w) (rendering w))
        end
    end.

(** [db.session.rollback()]: the open transaction and everything the
    session was asked to do are dropped. *)
Definition session_rollback : M unit :=
  fun w => (inr tt, mkWorld (table w) None [] [] (reading w) (rendering w)).

(** A SELECT: it ends in the exception of the storage when the storage
    cannot be read, and else in what the statement gives on the table the
    transaction sees. *)
Definition select {A : Type} (f : list Row -> Exn + A) : M A :=
  fun w =>
    match reading w with
    | Some m => (inl (OperationalError m), w)
    | None =>
        match f (visible w) with
        | inl e => (inl e, w)
        | inr a => (inr a, w)
        end
    end.

(** [Order.query.all()]. *)
Definition query_all : M (list Order) :=
  select (fun t => inr (map Order_of_row t)).

(** [Order.query.get_or_404(id)]. *)
Definition query_get_or_404 (i : Z) : M Order :=
  found <- select (sql_get i) ;;
  match found with
  | None => raise NotFound
  | Some r => ret (Order_of_row r)
  end.

(** Reading an attribute of an instance after the commit.  The commit
    expires the instance (the session is made with the default
    [expire_on_commit]), so the first read loads it again with a SELECT
    of its row, which holds what the instance was written with. *)
Definition load_expired (o : Order) : M Order :=
  select (fun _ => inr o).

(** ** Responses *)

(** A value of a template context. *)
Inductive tvalue : Type :=
| TVal (v : value)
| TDicts (l : list pydict).

Inductive Body : Type :=
| Html (template : string) (context : list (string * tvalue))
| Text (s : string)
| Location (url : string).

Record Response : Type := mkResponse {
  body : Body;
  status : Z
}.

(** The page [render_template] returns when it returns. *)
Definition render_template (template : string)
    (context : list (string * tvalue)) : Response :=
  mkResponse (Html template context) 200.

(** The call of [render_template]: the page, or the exception of the
    template engine. *)
Definition render (template : string) (context : list (string * tvalue))
  : M Response :=
  fun w =>
    match rendering w with
    | Some m => (inl (TemplateError m), w)
    | None => (inr (render_template template context), w)
    end.

Definition redirect (url : string) : Response :=
  mkResponse (Location url) 302.

(** [url_for]: the rule of the endpoint (lines 47, 61, 92, 107). *)
Definition url_for (endpoint : string) : string :=
  if String.eqb endpoint "kitchen" then "/kitchen/" else "".

(** [request.form.get(key)]: the first value of the key, else [None]. *)
Fixpoint form_get (key : string) (form : list (string * string))
  : option string :=
  match form with
  | [] => None
  | (k, v) :: form' => if String.eqb key k then Some v else form_get key form'
  end.

(** ** The handlers *)

(** Lines 47-58. *)
Definition main_menu (table_number : Z) : M Response :=
  render "main_menu.html" [("table_number", TVal (VInt table_number))].

(** Lines 61-89. *)
Definition place_order (env : Env) (form : list (string * string))
    (table_number : Z) : M Response :=
  let order := mkOrder None
                 (form_get "customer_name" form)
                 (Some table_number)
                 (form_get "order_summary" form) in
  try_except
    (session_add order ;;
     session_commit env)
    (fun e =>
       session_rollback ;;
       ret (mkResponse (Text ("Error placing order: " ++ str e)%string) 500))
    (order <- load_expired order ;;
     render "order_summary.html"
       [("customer_name", TVal (of_str (customer_name order)));
        ("table_number", TVal (VInt table_number));
        ("order_summary", TVal (of_str (orders order)))]).

(** Lines 92-104. *)
Definition kitchen : M Response :=
  orders <- query_all ;;
  let orders_list := map (fun order => dict (Order_iter order)) orders in
  render "kitchen.html" [("orders", TDicts orders_list)].

(** Lines 107-125. *)
Definition delete_order (env : Env) (id : Z) : M Response :=
  order <- query_get_or_404 id ;;
  try_except
    (session_delete order ;;
     session_commit env)
    (fun e =>
       session_rollback ;;
       ret (mkResponse (Text ("Error deleting order: " ++ str e)%string) 500))
    (ret (redirect (url_for "kitchen"))).

(** ** The application *)

(** A request as routed: the [int] converter of a rule only matches
    digits, so the numbers it delivers are naturals. *)
Inductive Request : Type :=
| GET_menu (table_number : N)
| POST_order (table_number : N) (form : list (string * string))
| GET_kitchen
| GET_delete (id : N).

Definition dispatch (env : Env) (req : Request) : M Response :=
  match req with
  | GET_menu n => main_menu (Z.of_N n)
  | POST_order n form => place_order env form (Z.of_N n)
  | GET_kitchen => kitchen
  | GET_delete n => delete_order env (Z.of_N n)
  end.

(** A request starts with a session of its own.  In this world the
    storage can be read and the templates render. *)
Definition request_world (db : list Row) : World :=
  mkWorld db None [] [] None None.

(** One request against the stored table, in surroundings where the
    storage can be read and the templates render: the response and the
    table afterwards.  An exception that leaves the handler becomes the
    error page of its kind; whatever was left open is dropped when the
    request ends. *)
Definition serve (env : Env) (req : Request) (db : list Row)
  : Response * list Row :=
  match dispatch env req (request_world db) with
  | (inr r, w) => (r, table w)
  | (inl NotFound, w) => (mkResponse (Text "Not Found") 404, table w)
  | (inl _, w) => (mkResponse (Text "Internal Server Error") 500, table w)
  end.

(** The same with surroundings in which the storage may be unreadable or
    the templates may fail to render: [serve] is the case where both
    work. *)
Definition request_world_under (reading rendering : option string)
    (db : list Row) : World :=
  mkWorld db None [] [] reading rendering.

Definition serve_under (reading rendering : option string)
    (env : Env) (req : Request) (db : list Row) : Response * list Row :=
  match dispatch env req (request_world_under reading rendering db) with
  | (inr r, w) => (r, table w)
  | (inl NotFound, w) => (mkResponse (Text "Not Found") 404, table w)
  | (inl _, w) => (mkResponse (Text "Internal Server Error") 500, table w)
  end.

(** What [Order.query.all()] returns on a stored table. *)
Definition list_all (db : list Row) : list Order :=
  match fst (query_all (request_world db)) with
  | inr l => l
  | inl _ => []
  end.

(** The tables the application can produce, starting from the empty table
    made by [db.create_all()] (line 44). *)
Inductive reachable : list Row -> Prop :=
| reachable_empty : reachable []
| reachable_serve db env req :
    reachable db -> reachable (snd (serve env req db)).

(** ** Notions used in the statements *)

(** What the INSERT-and-COMMIT of [place_order] amounts to: the exception
    raised, or the new rowid and the table committed. *)
Definition insert_commit (env : Env) (o : Order) (db : list Row)
  : Exn + (Z * list Row) :=
  match env_fault env with
  | FaultAtWrite m => inl (OperationalError m)
  | FaultAtCommit m =>
      match sql_insert (env_random env) (env_text env)
              (customer_name o) (table_number o) (orders o) db with
      | inl e => inl e
      | inr _ => inl (OperationalError m)
      end
  | NoFault =>
      sql_insert (env_random env) (env_text env)
        (customer_name o) (table_number o) (orders o) db
  end.

(** The instance built at lines 72-76. *)
Definition new_order (form : list (string * string)) (table_number : Z)
  : Order :=
  mkOrder None (form_get "customer_name" form) (Some table_number)
          (form_get "order_summary" form).

(** What the DELETE-and-COMMIT of [delete_order] amounts to. *)
Definition delete_commit (env : Env) (i : Z) (db : list Row)
  : Exn + list Row :=
  match env_fault env with
  | FaultAtWrite m => inl (OperationalError m)
  | FaultAtCommit m =>
      match sql_delete i db with
      | inl e => inl e
      | inr _ => inl (OperationalError m)
      end
  | NoFault => sql_delete i db
  end.

(** What the declaration of the table asks of a row (lines 24-27), with
    rowids as the engine hands them out. *)
Definition row_ok (r : Row) : Prop :=
  1 <= row_id r <= MAX_ROWID /\
  row_customer_name r <> None /\
  row_table_number r <> None /\
  row_orders r <> None.

(** The rows are well formed and the primary key is unique. *)
Definition table_ok (t : list Row) : Prop :=
  Forall row_ok t /\ NoDup (rowids t).

(** The page returned at lines 84-89 for a name and an order text. *)
Definition order_summary_page (cn : string) (tn : Z) (os : string)
  : Response :=
  render_template "order_summary.html"
    [("customer_name", TVal (VStr cn));
     ("table_number", TVal (VInt tn));
     ("order_summary", TVal (VStr os))].

(** Equality test on optional values. *)
Definition opt_eqb {A : Type} (eqb : A -> A -> bool) (x y : option A)
  : bool :=
  match x, y with
  | Some a, Some b => eqb a b
  | None, None => true
  | _, _ => false
  end.

(** [o] carries the given values and an id that no row of [db] has. *)
Definition created_in (db : list Row)
    (cn : option string) (tn : Z) (os : option string) (o : Order) : bool :=
  opt_eqb String.eqb (customer_name o) cn &&
  opt_eqb Z.eqb (table_number o) (Some tn) &&
  opt_eqb String.eqb (orders o) os &&
  match id o with
  | Some i => negb (rowid_used i db)
  | None => false
  end.

(** Sample surroundings, forms and rows.  In the samples the ORM adds
    nothing to the message of the driver. *)
Definition quiet : Env := mkEnv NoFault [] (fun m => m).

Definition failing : Env :=
  mkEnv (FaultAtCommit "disk I/O error") [] (fun m => m).

Definition alice : list (string * string) :=
  [("customer_name", "Alice"); ("order_summary", "2x burger")].

Definition bob : list (string * string) :=
  [("customer_name", "Bob"); ("order_summary", "1x soup")].

Definition nameless : list (string * string) :=
  [("order_summary", "2x burger")].

(** The first table number, and id, that does not fit 64 bits. *)
Definition huge : N := 9223372036854775808.

Definition alice_row : Row :=
  mkRow 1 (Some "Alice") (Some 4) (Some "2x burger").

(** The ids that a request put into the table: those present after it and
    not before. *)
Definition fresh_ids (before after : list Row) : list Z :=
  filter (fun i => negb (rowid_used i before)) (rowids after).

(** The ids assigned along a run of requests, in order. *)
Fixpoint assigned_ids (trace : list (Env * Request)) (db : list Row)
  : list Z :=
  match trace with
  | [] => []
  | (env, req) :: trace' =>
      let db' := snd (serve env req db) in
      fresh_ids db db' ++ assigned_ids trace' db'
  end.

(** A run of requests, one after the other, and the table it leaves. *)
Fixpoint run (trace : list (Env * Request)) (db : list Row) : list Row :=
  match trace with
  | [] => db
  | (env, req) :: trace' => run trace' (snd (serve env req db))
  end.

(** A request that is not a [GET /delete/i]. *)
Definition no_delete (req : Request) : Prop :=
  match req with
  | GET_delete _ => False
  | _ => True
  end.

(** The page the server answers with when an exception leaves a
    handler. *)
Definition server_error : Response :=
  mkResponse (Text "Internal Server Error") 500.

(** A form field other than the two [place_order] reads. *)
Definition unread_field (kv : string * string) : Prop :=
  fst kv <> "customer_name" /\ fst kv <> "order_summary".

(** The record the kitchen view shows for a row (lines 36-39). *)
Definition kitchen_record (r : Row) : pydict :=
  [("id", VInt (row_id r));
   ("customer_name", of_str (row_customer_name r));
   ("table_number", of_int (row_table_number r));
   ("orders", of_str (row_orders r))].

(** * Properties *)

(** ** The engine *)

Lemma fits_int64_spec n :
  fits_int64 n = true <-> - MAX_ROWID - 1 <= n <= MAX_ROWID.
Proof.
  unfold fits_int64. rewrite andb_true_iff, !Z.leb_le. tauto.
Qed.

Lemma rowid_used_spec i t : rowid_used i t = true <-> In i (rowids t).
Proof.
  unfold rowid_used. rewrite existsb_exists. split.
  - intros [x [Hx Heq]]. apply Z.eqb_eq in Heq. now subst.
  - intros H. exists i. split; [assumption | apply Z.eqb_refl].
Qed.

Lemma rowid_unused_spec i t : rowid_used i t = false <-> ~ In i (rowids t).
Proof.
  rewrite <- rowid_used_spec. destruct (rowid_used i t); split; congruence.
Qed.

Lemma max_rowid_cons r x t :
  max_rowid (r :: x :: t) = Z.max (row_id r) (max_rowid (x :: t)).
Proof. reflexivity. Qed.

Lemma max_rowid_bound t i : In i (rowids t) -> i <= max_rowid t.
Proof.
  induction t as [|r t IH]; [simpl; tauto|].
  destruct t as [|x t].
  - simpl. intros [<- | []]. lia.
  - rewrite max_rowid_cons. intros [<- | H]; [lia | specialize (IH H); lia].
Qed.

Lemma max_rowid_In t : t <> [] -> In (max_rowid t) (rowids t).
Proof.
  induction t as [|r t IH]; [congruence|]. intros _.
  destruct t as [|x t]; [now left|].
  rewrite max_rowid_cons.
  destruct (Z.max_spec (row_id r) (max_rowid (x :: t))) as [[_ ->] | [_ ->]].
  - right. apply IH. discriminate.
  - now left.
Qed.

(** The rowid the engine chooses is a 64-bit integer that no row of the
    table has. *)
Lemma new_rowid_fresh random t i :
  new_rowid random t = Some i ->
  ~ In i (rowids t) /\ i <= MAX_ROWID.
Proof.
  unfold new_rowid. destruct t as [|r t].
  - intros [= <-]. split; [simpl; tauto | unfold MAX_ROWID; lia].
  - generalize (r :: t) as t0. intros t0. cbv zeta.
    destruct (Z.ltb_spec (max_rowid t0) MAX_ROWID) as [Hlt | Hge].
    + intros [= <-]. split; [|lia].
      intros Hin. apply max_rowid_bound in Hin. lia.
    + intros Hfind. apply find_some in Hfind as [_ Hc].
      rewrite !andb_true_iff, negb_true_iff, !Z.leb_le in Hc.
      destruct Hc as [[H1 H2] H3]. apply rowid_unused_spec in H3. tauto.
Qed.

(** In a table whose rowids are positive, so is the one chosen. *)
Lemma new_rowid_positive random t i :
  Forall (fun r => 1 <= row_id r) t ->
  new_rowid random t = Some i ->
  1 <= i.
Proof.
  intros Hpos. unfold new_rowid. destruct t as [|r t].
  - intros [= <-]. lia.
  - assert (Hmax : 1 <= max_rowid (r :: t)).
    { pose proof (max_rowid_In (r :: t)) as Hin.
      unfold rowids in Hin. apply in_map_iff in Hin as [x [<- Hx]];
        [|discriminate].
      rewrite Forall_forall in Hpos. now apply Hpos. }
    revert Hmax. generalize (r :: t) as t0. intros t0 Hmax. cbv zeta.
    destruct (max_rowid t0 <? MAX_ROWID).
    + intros [= <-]. lia.
    + intros Hfind. apply find_some in Hfind as [_ Hc].
      rewrite !andb_true_iff, !Z.leb_le in Hc. tauto.
Qed.

Lemma insert_row_perm r t : Permutation (insert_row r t) (r :: t).
Proof.
  induction t as [|x t IH]; simpl; [reflexivity|].
  destruct (row_id r <? row_id x); [reflexivity|].
  rewrite IH. apply perm_swap.
Qed.

Lemma insert_row_In r t x : In x (insert_row r t) <-> x = r \/ In x t.
Proof.
  split; intros H.
  - apply (Permutation_in _ (insert_row_perm r t)) in H. simpl in H.
    destruct H; [left; congruence | now right].
  - apply (Permutation_in _ (Permutation_sym (insert_row_perm r t))).
    simpl. destruct H; [left; congruence | now right].
Qed.

Lemma filter_length_perm {A : Type} (p : A -> bool) (l l' : list A) :
  Permutation l l' ->
  List.length (filter p l) = List.length (filter p l').
Proof.
  induction 1; simpl; try congruence.
  - destruct (p x); simpl; congruence.
  - destruct (p x), (p y); reflexivity.
Qed.

(** The only way an [INSERT] goes through. *)
Lemma sql_insert_inr random text cn tn os t i t' :
  sql_insert random text cn tn os t = inr (i, t') ->
  (exists c n o, cn = Some c /\ tn = Some n /\ os = Some o
                 /\ fits_int64 n = true) /\
  new_rowid random t = Some i /\
  t' = insert_row (mkRow i cn tn os) t.
Proof.
  unfold sql_insert, bind_opt_int, bind_int, not_null.
  destruct tn as [n|]; [destruct (fits_int64 n) eqn:Hn|];
    destruct (new_rowid random t) as [j|]; destruct cn as [c|];
    destruct os as [o|]; try discriminate.
  intros [= <- <-]. repeat split. now exists c, n, o.
Qed.

Lemma sql_insert_ok random text c n o t i :
  fits_int64 n = true ->
  new_rowid random t = Some i ->
  sql_insert random text (Some c) (Some n) (Some o) t =
  inr (i, insert_row (mkRow i (Some c) (Some n) (Some o)) t).
Proof.
  intros Hn Hi. unfold sql_insert, bind_opt_int, bind_int, not_null.
  now rewrite Hn, Hi.
Qed.

(** ** One request, step by step *)

Arguments sql_insert : simpl never.
Arguments sql_get : simpl never.
Arguments sql_delete : simpl never.

(** The add-and-commit of [place_order], whatever the surroundings. *)
Lemma place_order_body_under rd rn env form tn db :
  (session_add (new_order form tn) ;; session_commit env)
    (request_world_under rd rn db) =
  match insert_commit env (new_order form tn) db with
  | inr (_, t') => (inr tt, request_world_under rd rn t')
  | inl e =>
      (inl e,
       mkWorld db
         match env_fault env with
         | FaultAtWrite _ => None
         | _ =>
             match sql_insert (env_random env) (env_text env)
                     (form_get "customer_name" form) (Some tn)
                     (form_get "order_summary" form) db with
             | inr (_, t') => Some t'
             | inl _ => Some db
             end
         end
         [new_order form tn] [] rd rn)
  end.
Proof.
  destruct env as [fault random text]. cbv -[sql_insert form_get].
  destruct fault; try reflexivity;
    destruct (sql_insert random text (form_get "customer_name" form)
                (Some tn) (form_get "order_summary" form) db)
      as [e | [i t']]; reflexivity.
Qed.

Lemma place_order_body env form tn db :
  (session_add (new_order form tn) ;; session_commit env) (request_world db) =
  match insert_commit env (new_order form tn) db with
  | inr (_, t') => (inr tt, request_world t')
  | inl e =>
      (inl e,
       mkWorld db
         match env_fault env with
         | FaultAtWrite _ => None
         | _ =>
             match sql_insert (env_random env) (env_text env)
                     (form_get "customer_name" form) (Some tn)
                     (form_get "order_summary" form) db with
             | inr (_, t') => Some t'
             | inl _ => Some db
             end
         end
         [new_order form tn] [] None None)
  end.
Proof. exact (place_order_body_under None None env form tn db). Qed.

(** [place_order] as a whole: the page is built after the commit, from
    the instance loaded again, outside the [try]. *)
Lemma place_order_run_under rd rn env form tn db :
  place_order env form tn (request_world_under rd rn db) =
  match insert_commit env (new_order form tn) db with
  | inr (_, t') =>
      match rd, rn with
      | Some m, _ => (inl (OperationalError m), request_world_under rd rn t')
      | None, Some m => (inl (TemplateError m), request_world_under rd rn t')
      | None, None =>
          (inr (render_template "order_summary.html"
                  [("customer_name",
                    TVal (of_str (form_get "customer_name" form)));
                   ("table_number", TVal (VInt tn));
                   ("order_summary",
                    TVal (of_str (form_get "order_summary" form)))]),
           request_world_under rd rn t')
      end
  | inl e =>
      (inr (mkResponse (Text ("Error placing order: " ++ str e)%string) 500),
       request_world_under rd rn db)
  end.
Proof.
  unfold place_order, try_except.
  change (mkOrder None (form_get "customer_name" form) (Some tn)
            (form_get "order_summary" form)) with (new_order form tn).
  rewrite place_order_body_under.
  destruct (insert_commit env (new_order form tn) db) as [e | [i t']];
    [reflexivity|].
  destruct rd as [m|]; [reflexivity|]. destruct rn as [m|]; reflexivity.
Qed.

Lemma place_order_run env form tn db :
  place_order env form tn (request_world db) =
  match insert_commit env (new_order form tn) db with
  | inr (_, t') =>
      (inr (render_template "order_summary.html"
              [("customer_name", TVal (of_str (form_get "customer_name" form)));
               ("table_number", TVal (VInt tn));
               ("order_summary",
                TVal (of_str (form_get "order_summary" form)))]),
       request_world t')
  | inl e =>
      (inr (mkResponse (Text ("Error placing order: " ++ str e)%string) 500),
       request_world db)
  end.
Proof.
  change (request_world db) with (request_world_under None None db).
  rewrite place_order_run_under.
  destruct (insert_commit env (new_order form tn) db) as [e | [i t']];
    reflexivity.
Qed.

(** What the DELETE-and-COMMIT of [delete_order] gives on the order it
    found. *)
Lemma delete_order_body_under rd rn env r db :
  exists w',
    (session_delete (Order_of_row r) ;; session_commit env)
      (request_world_under rd rn db) =
    match delete_commit env (row_id r) db with
    | inr t' => (inr tt, request_world_under rd rn t')
    | inl e => (inl e, w')
    end /\ table w' = db /\ reading w' = rd /\ rendering w' = rn.
Proof.
  destruct env as [fault random text].
  destruct fault as [|m|m].
  - destruct (sql_delete (row_id r) db) as [e | t'] eqn:Hd.
    + exists (mkWorld db (Some db) [] [Order_of_row r] rd rn).
      split; [|repeat split]. cbv -[sql_delete row_id]. now rewrite Hd.
    + exists (request_world_under rd rn db).
      split; [|repeat split]. cbv -[sql_delete row_id]. now rewrite Hd.
  - exists (mkWorld db None [] [Order_of_row r] rd rn).
    split; [reflexivity | repeat split].
  - destruct (sql_delete (row_id r) db) as [e | t'] eqn:Hd.
    + exists (mkWorld db (Some db) [] [Order_of_row r] rd rn).
      split; [|repeat split]. cbv -[sql_delete row_id]. now rewrite Hd.
    + exists (mkWorld db (Some t') [] [Order_of_row r] rd rn).
      split; [|repeat split]. cbv -[sql_delete row_id]. now rewrite Hd.
Qed.

Lemma delete_order_body env r db :
  exists w',
    (session_delete (Order_of_row r) ;; session_commit env) (request_world db) =
    match delete_commit env (row_id r) db with
    | inr t' => (inr tt, request_world t')
    | inl e => (inl e, w')
    end /\ table w' = db.
Proof.
  destruct (delete_order_body_under None None env r db) as [w' [H [Ht _]]].
  exists w'. split; assumption.
Qed.

(** The lookup of [delete_order]. *)
Lemma lookup_run_under rd rn i db :
  query_get_or_404 i (request_world_under rd rn db) =
  (match rd with
   | Some m => inl (OperationalError m)
   | None =>
       match sql_get i db with
       | inl e => inl e
       | inr None => inl NotFound
       | inr (Some r) => inr (Order_of_row r)
       end
   end, request_world_under rd rn db).
Proof.
  unfold query_get_or_404, bind, select.
  change (reading (request_world_under rd rn db)) with rd.
  change (visible (request_world_under rd rn db)) with db.
  destruct rd as [m|]; [reflexivity|].
  destruct (sql_get i db) as [e | [r|]]; reflexivity.
Qed.

(** [delete_order] as a whole: the lookup comes first and is outside the
    [try]. *)
Lemma delete_order_run_under rd rn env i db :
  delete_order env i (request_world_under rd rn db) =
  match rd with
  | Some m => (inl (OperationalError m), request_world_under rd rn db)
  | None =>
      match sql_get i db with
      | inl e => (inl e, request_world_under rd rn db)
      | inr None => (inl NotFound, request_world_under rd rn db)
      | inr (Some r) =>
          match delete_commit env (row_id r) db with
          | inr t' => (inr (redirect "/kitchen/"), request_world_under rd rn t')
          | inl e =>
              (inr (mkResponse
                      (Text ("Error deleting order: " ++ str e)%string) 500),
               request_world_under rd rn db)
          end
      end
  end.
Proof.
  unfold delete_order, bind at 1, query_get_or_404, bind at 1, select,
    try_except.
  change (reading (request_world_under rd rn db)) with rd.
  change (visible (request_world_under rd rn db)) with db.
  destruct rd as [m|]; [reflexivity|].
  destruct (sql_get i db) as [e | [r|]]; try reflexivity.
  unfold ret at 1.
  destruct (delete_order_body_under None rn env r db)
    as [w' [-> [Hw' [Hrd Hrn]]]].
  destruct (delete_commit env (row_id r) db) as [e | t']; [|reflexivity].
  unfold bind, session_rollback, ret, request_world_under.
  now rewrite Hw', Hrd, Hrn.
Qed.

Lemma delete_order_run env i db :
  delete_order env i (request_world db) =
  match sql_get i db with
  | inl e => (inl e, request_world db)
  | inr None => (inl NotFound, request_world db)
  | inr (Some r) =>
      match delete_commit env (row_id r) db with
      | inr t' => (inr (redirect "/kitchen/"), request_world t')
      | inl e =>
          (inr (mkResponse (Text ("Error deleting order: " ++ str e)%string)
                  500),
           request_world db)
      end
  end.
Proof. exact (delete_order_run_under None None env i db). Qed.

(** [kitchen] as a whole. *)
Lemma kitchen_run_under rd rn db :
  kitchen (request_world_under rd rn db) =
  (match rd, rn with
   | Some m, _ => inl (OperationalError m)
   | None, Some m => inl (TemplateError m)
   | None, None =>
       inr (render_template "kitchen.html"
              [("orders",
                TDicts (map (fun order => dict (Order_iter order))
                            (map Order_of_row db)))])
   end, request_world_under rd rn db).
Proof.
  unfold kitchen, bind, query_all, select, render.
  change (reading (request_world_under rd rn db)) with rd.
  change (visible (request_world_under rd rn db)) with db.
  destruct rd as [m|]; [reflexivity|]. destruct rn as [m|]; reflexivity.
Qed.

Lemma sql_get_found i db r :
  sql_get i db = inr (Some r) ->
  fits_int64 i = true /\ row_id r = i /\ In r db.
Proof.
  unfold sql_get, bind_int. destruct (fits_int64 i); [|discriminate].
  intros [= H]. apply find_some in H as [Hin Heq].
  apply Z.eqb_eq in Heq. auto.
Qed.

Lemma sql_get_missing i db :
  fits_int64 i = true -> ~ In i (rowids db) -> sql_get i db = inr None.
Proof.
  intros Hi Hnot. unfold sql_get, bind_int. rewrite Hi. f_equal.
  destruct (find (fun r => row_id r =? i) db) as [r|] eqn:Hf; [|reflexivity].
  apply find_some in Hf as [Hin Heq]. apply Z.eqb_eq in Heq.
  exfalso. apply Hnot. subst i. unfold rowids. now apply in_map.
Qed.

Lemma sql_get_present i db :
  fits_int64 i = true -> In i (rowids db) ->
  exists r, sql_get i db = inr (Some r).
Proof.
  intros Hi Hin. unfold sql_get, bind_int. rewrite Hi.
  destruct (find (fun r => row_id r =? i) db) as [r|] eqn:Hf;
    [now exists r|].
  exfalso. unfold rowids in Hin. apply in_map_iff in Hin as [r [Hr Hin]].
  apply (find_none _ _ Hf) in Hin. apply Z.eqb_neq in Hin. auto.
Qed.

(** ** The constraints of the table *)

Lemma NoDup_rowids_filter (p : Row -> bool) t :
  NoDup (rowids t) -> NoDup (rowids (filter p t)).
Proof.
  unfold rowids. induction t as [|r t IH]; simpl; [auto|].
  intros H. inversion H as [|? ? Hnot Hnd]; subst.
  destruct (p r); simpl; [|auto].
  constructor; [|auto].
  intros Hin. apply Hnot. apply in_map_iff in Hin as [x [Hx Hin]].
  apply filter_In in Hin as [Hin _]. rewrite <- Hx. now apply in_map.
Qed.

Lemma table_ok_insert random text cn tn os t i t' :
  table_ok t ->
  sql_insert random text cn tn os t = inr (i, t') ->
  table_ok t'.
Proof.
  intros [Hall Hnd] Hins.
  apply sql_insert_inr in Hins
    as [[c [n [o [-> [-> [-> Hn]]]]]] [Hnew ->]].
  assert (Hpos : 1 <= i).
  { apply (new_rowid_positive _ _ _ (Forall_impl _ (fun r H => proj1 (proj1 H))
                                       Hall) Hnew). }
  apply new_rowid_fresh in Hnew as [Hfresh Hrange].
  pose proof (insert_row_perm (mkRow i (Some c) (Some n) (Some o)) t) as Hp.
  split.
  - apply (Permutation_Forall (Permutation_sym Hp)). constructor; [|assumption].
    repeat split; simpl; try discriminate; lia.
  - apply (Permutation_NoDup
             (Permutation_map row_id (Permutation_sym Hp))).
    simpl. now constructor.
Qed.

Lemma table_ok_delete i t t' :
  table_ok t -> sql_delete i t = inr t' -> table_ok t'.
Proof.
  intros [Hall Hnd]. unfold sql_delete. destruct (bind_int i); [discriminate|].
  intros [= <-]. split.
  - apply Forall_forall. intros r Hr. apply filter_In in Hr as [Hr _].
    revert r Hr. now apply Forall_forall.
  - now apply NoDup_rowids_filter.
Qed.

Lemma insert_commit_inr env o db i t' :
  insert_commit env o db = inr (i, t') ->
  env_fault env = NoFault /\
  sql_insert (env_random env) (env_text env)
    (customer_name o) (table_number o) (orders o) db
  = inr (i, t').
Proof.
  unfold insert_commit. destruct (env_fault env); try discriminate; auto.
  destruct (sql_insert _ _ _ _ _ db); discriminate.
Qed.

Lemma delete_commit_inr env i db t' :
  delete_commit env i db = inr t' ->
  env_fault env = NoFault /\ sql_delete i db = inr t'.
Proof.
  unfold delete_commit. destruct (env_fault env); try discriminate; auto.
  destruct (sql_delete i db); discriminate.
Qed.

(** Every request keeps the constraints of the table. *)
Lemma serve_table_ok env req db :
  table_ok db -> table_ok (snd (serve env req db)).
Proof.
  intros Hok. unfold serve. destruct req as [n | n form | | n]; simpl.
  - assumption.
  - rewrite place_order_run.
    destruct (insert_commit env (new_order form (Z.of_N n)) db)
      as [e | [i t']] eqn:Hc; simpl; [assumption|].
    apply insert_commit_inr in Hc as [_ Hins].
    eapply table_ok_insert; eassumption.
  - assumption.
  - rewrite delete_order_run.
    destruct (sql_get (Z.of_N n) db) as [e | [r|]];
      [destruct e; assumption | | assumption].
    destruct (delete_commit env (row_id r) db) as [e | t'] eqn:Hc; simpl;
      [assumption|].
    apply delete_commit_inr in Hc as [_ Hdel].
    eapply table_ok_delete; eassumption.
Qed.

Lemma reachable_table_ok db : reachable db -> table_ok db.
Proof.
  induction 1 as [|db env req _ IH].
  - split; constructor.
  - now apply serve_table_ok.
Qed.

(** ** Creating an order *)

(** A [POST /order/n] answered with 200 wrote exactly one row, under a
    rowid the table did not have. *)
Lemma serve_create_success env tn form db r db' :
  serve env (POST_order tn form) db = (r, db') ->
  status r = 200 ->
  exists i c o,
    form_get "customer_name" form = Some c /\
    form_get "order_summary" form = Some o /\
    fits_int64 (Z.of_N tn) = true /\
    env_fault env = NoFault /\
    new_rowid (env_random env) db = Some i /\
    db' = insert_row (mkRow i (Some c) (Some (Z.of_N tn)) (Some o)) db /\
    r = order_summary_page c (Z.of_N tn) o.
Proof.
  unfold serve, dispatch. rewrite place_order_run.
  destruct (insert_commit env (new_order form (Z.of_N tn)) db)
    as [e | [i t']] eqn:Hc; intros [= <- <-]; simpl; [discriminate|].
  intros _. apply insert_commit_inr in Hc as [Hf Hins]. simpl in Hins.
  apply sql_insert_inr in Hins
    as [[c [n [o [Hc [[= <-] [Ho Hn]]]]]] [Hnew ->]].
  exists i, c, o. rewrite Hc, Ho. repeat split; assumption.
Qed.

(** When nothing fails the request is answered with 200. *)
Lemma serve_create_ok env tn form db c o i :
  form_get "customer_name" form = Some c ->
  form_get "order_summary" form = Some o ->
  fits_int64 (Z.of_N tn) = true ->
  env_fault env = NoFault ->
  new_rowid (env_random env) db = Some i ->
  serve env (POST_order tn form) db =
  (order_summary_page c (Z.of_N tn) o,
   insert_row (mkRow i (Some c) (Some (Z.of_N tn)) (Some o)) db).
Proof.
  intros Hc Ho Hn Hf Hi. unfold serve, dispatch. rewrite place_order_run.
  unfold insert_commit, new_order. rewrite Hf. simpl. rewrite Hc, Ho.
  rewrite (sql_insert_ok _ _ c (Z.of_N tn) o db i Hn Hi). reflexivity.
Qed.

(** Any other answer is the 500 page of an exception raised by the commit,
    and the table is as before. *)
Lemma serve_create_failure env tn form db r db' :
  serve env (POST_order tn form) db = (r, db') ->
  status r <> 200 ->
  db' = db /\
  exists e,
    insert_commit env (new_order form (Z.of_N tn)) db = inl e /\
    r = mkResponse (Text ("Error placing order: " ++ str e)%string) 500.
Proof.
  unfold serve, dispatch. rewrite place_order_run.
  destruct (insert_commit env (new_order form (Z.of_N tn)) db)
    as [e | [i t']] eqn:Hc; intros [= <- <-]; simpl.
  - intros _. split; [reflexivity|]. now exists e.
  - intros H. now contradiction H.
Qed.

Lemma created_in_old db cn tn os (l : list Row) :
  incl l db ->
  filter (created_in db cn tn os) (map Order_of_row l) = [].
Proof.
  induction l as [|r l IH]; intros Hincl; [reflexivity|].
  simpl. rewrite IH by (intros x Hx; apply Hincl; now right).
  unfold created_in. simpl.
  assert (Hused : rowid_used (row_id r) db = true).
  { apply rowid_used_spec. unfold rowids. apply in_map. apply Hincl. now left. }
  rewrite Hused. simpl. now rewrite andb_false_r.
Qed.

Lemma list_all_eq db : list_all db = map Order_of_row db.
Proof. reflexivity. Qed.

(** C1.  A [POST /order/n] that succeeds, followed by the query of the
    kitchen view: among the orders listed exactly one has the submitted
    customer name, table number and order text together with an id that
    no order had before the request. *)
Theorem create_then_list_all env db tn form r db' :
  serve env (POST_order tn form) db = (r, db') ->
  status r = 200 ->
  List.length
    (filter (created_in db (form_get "customer_name" form) (Z.of_N tn)
               (form_get "order_summary" form))
            (list_all db')) = 1%nat.
Proof.
  intros Hs Hr.
  destruct (serve_create_success _ _ _ _ _ _ Hs Hr)
    as [i [c [o [Hc [Ho [_ [_ [Hnew [-> _]]]]]]]]].
  apply new_rowid_fresh in Hnew as [Hfresh _].
  rewrite list_all_eq, Hc, Ho.
  rewrite (filter_length_perm _ _ _
             (Permutation_map Order_of_row (insert_row_perm _ db))).
  simpl map. simpl filter.
  rewrite created_in_old by apply incl_refl.
  unfold created_in. simpl.
  rewrite !String.eqb_refl, Z.eqb_refl.
  apply rowid_unused_spec in Hfresh. rewrite Hfresh. reflexivity.
Qed.

Lemma create_then_list_all_witness :
  List.length
    (filter (created_in [] (Some "Alice") 4 (Some "2x burger"))
            (list_all
               [mkRow 1 (Some "Alice") (Some 4) (Some "2x burger")])) = 1%nat.
Proof.
  apply (create_then_list_all quiet [] 4%N alice
           (order_summary_page "Alice" 4 "2x burger")
           [mkRow 1 (Some "Alice") (Some 4) (Some "2x burger")]);
    reflexivity.
Defined.

(** ** Deleting an order *)

(** C2, as the code has it.  A [GET /delete/i] for an id that no stored
    order has leaves the table as it was; the answer is the 404 page when
    the id fits a 64-bit integer, and the 500 page of the exception that
    the lookup raises when it does not. *)
Theorem delete_missing_id env db i :
  ~ In (Z.of_N i) (rowids db) ->
  snd (serve env (GET_delete i) db) = db /\
  (fits_int64 (Z.of_N i) = true ->
   delete_order env (Z.of_N i) (request_world db)
   = (inl NotFound, request_world db) /\
   fst (serve env (GET_delete i) db) = mkResponse (Text "Not Found") 404) /\
  (fits_int64 (Z.of_N i) = false ->
   delete_order env (Z.of_N i) (request_world db)
   = (inl (OverflowError overflow_msg), request_world db) /\
   status (fst (serve env (GET_delete i) db)) = 500).
Proof.
  intros Hnot. unfold serve, dispatch. rewrite delete_order_run.
  destruct (fits_int64 (Z.of_N i)) eqn:Hi.
  - rewrite (sql_get_missing _ _ Hi Hnot). simpl.
    repeat split; auto; discriminate.
  - unfold sql_get, bind_int. rewrite Hi. simpl.
    repeat split; auto; discriminate.
Qed.

Lemma delete_missing_id_witness :
  snd (serve quiet (GET_delete 999) []) = [] /\
  fst (serve quiet (GET_delete 999) []) = mkResponse (Text "Not Found") 404.
Proof.
  destruct (delete_missing_id quiet [] 999%N) as [Hdb [H404 _]].
  - simpl. tauto.
  - split; [exact Hdb | apply H404; reflexivity].
Defined.

(** C2 fails for an id that does not fit the integer type of the column:
    no order has the id, and the answer is not the 404 page. *)
Lemma delete_unstorable_id_not_404 :
  ~ In (Z.of_N 9223372036854775808) (rowids []) /\
  status (fst (serve quiet (GET_delete 9223372036854775808) [])) = 500 /\
  status (fst (serve quiet (GET_delete 9223372036854775808) [])) <> 404.
Proof.
  split; [simpl; tauto|]. split; [reflexivity | discriminate].
Qed.

(** C3.  On a table the application produced, a [GET /delete/i] for the
    id of a stored order, with the storage working, is answered with the
    redirect to the kitchen view; afterwards no listed order has the id,
    and every other order listed before is still listed (and none is
    new). *)
Theorem delete_existing_id env db i :
  reachable db ->
  env_fault env = NoFault ->
  In (Z.of_N i) (rowids db) ->
  exists db',
    serve env (GET_delete i) db = (redirect "/kitchen/", db') /\
    (forall o, In o (list_all db') -> id o <> Some (Z.of_N i)) /\
    (forall o, In o (list_all db) -> id o <> Some (Z.of_N i) ->
               In o (list_all db')) /\
    (forall o, In o (list_all db') -> In o (list_all db)).
Proof.
  intros Hreach Hf Hin.
  destruct (reachable_table_ok _ Hreach) as [Hall _].
  assert (Hi : fits_int64 (Z.of_N i) = true).
  { unfold rowids in Hin. apply in_map_iff in Hin as [r [Hr Hin]].
    rewrite Forall_forall in Hall. destruct (Hall r Hin) as [Hrange _].
    apply fits_int64_spec. unfold MAX_ROWID in *. lia. }
  destruct (sql_get_present _ _ Hi Hin) as [r Hget].
  destruct (sql_get_found _ _ _ Hget) as [_ [Hrid _]].
  exists (filter (fun x => negb (row_id x =? Z.of_N i)) db).
  split; [|split; [|split]].
  - unfold serve, dispatch. rewrite delete_order_run, Hget.
    unfold delete_commit. rewrite Hf, Hrid.
    unfold sql_delete, bind_int. rewrite Hi. reflexivity.
  - intros o Ho. rewrite list_all_eq in Ho.
    apply in_map_iff in Ho as [x [<- Hx]]. apply filter_In in Hx as [_ Hx].
    apply negb_true_iff, Z.eqb_neq in Hx. simpl. congruence.
  - intros o Ho Hne. rewrite list_all_eq in *.
    apply in_map_iff in Ho as [x [<- Hx]]. apply in_map.
    apply filter_In. split; [assumption|].
    apply negb_true_iff, Z.eqb_neq. simpl in Hne. congruence.
  - intros o Ho. rewrite list_all_eq in *.
    apply in_map_iff in Ho as [x [<- Hx]]. apply in_map.
    now apply filter_In in Hx as [Hx _].
Qed.

Lemma delete_existing_id_witness :
  exists db',
    serve quiet (GET_delete 1) [alice_row] = (redirect "/kitchen/", db') /\
    (forall o, In o (list_all db') -> id o <> Some 1) /\
    (forall o, In o (list_all [alice_row]) -> id o <> Some 1 ->
               In o (list_all db')) /\
    (forall o, In o (list_all db') -> In o (list_all [alice_row])).
Proof.
  apply (delete_existing_id quiet [alice_row] 1%N).
  - exact (reachable_serve [] quiet (POST_order 4 alice) reachable_empty).
  - reflexivity.
  - simpl. left. reflexivity.
Defined.

(** ** Failure of the commit *)

(** C4.  Whenever the add-and-commit of [place_order], or the
    delete-and-commit of [delete_order] on the order it found, raises an
    exception, for whatever reason, the committed table was not touched,
    and the handler answers with status 500 and the message of that
    exception, after a rollback that leaves no transaction open and
    nothing pending: the world it returns is the one the request started
    in. *)
Theorem commit_failure_rolls_back env db :
  (forall form tn e w',
      (session_add (mkOrder None (form_get "customer_name" form) (Some tn)
                      (form_get "order_summary" form)) ;;
       session_commit env) (request_world db) = (inl e, w') ->
      table w' = db /\
      place_order env form tn (request_world db) =
      (inr (mkResponse (Text ("Error placing order: " ++ str e)%string) 500),
       request_world db)) /\
  (forall i order e w',
      query_get_or_404 i (request_world db) = (inr order, request_world db) ->
      (session_delete order ;; session_commit env) (request_world db)
      = (inl e, w') ->
      table w' = db /\
      delete_order env i (request_world db) =
      (inr (mkResponse (Text ("Error deleting order: " ++ str e)%string) 500),
       request_world db)).
Proof.
  split.
  - intros form tn e w' Hbody.
    change (mkOrder None (form_get "customer_name" form) (Some tn)
              (form_get "order_summary" form)) with (new_order form tn)
      in Hbody.
    rewrite place_order_body in Hbody. rewrite place_order_run.
    destruct (insert_commit env (new_order form tn) db) as [e0 | [j t']];
      [|discriminate].
    injection Hbody as <- <-. split; reflexivity.
  - intros i order e w' Hget Hbody.
    change (request_world db) with (request_world_under None None db)
      in Hget at 1.
    rewrite lookup_run_under in Hget.
    rewrite delete_order_run.
    destruct (sql_get i db) as [e0 | [r|]]; try discriminate.
    injection Hget as <-.
    destruct (delete_order_body env r db) as [w'' [Heq Hw'']].
    rewrite Heq in Hbody.
    destruct (delete_commit env (row_id r) db) as [e0 | t']; [|discriminate].
    injection Hbody as <- <-. split; [assumption | reflexivity].
Qed.

Lemma commit_failure_rolls_back_witness :
  place_order failing alice 4 (request_world []) =
  (inr (mkResponse (Text "Error placing order: disk I/O error") 500),
   request_world []) /\
  delete_order failing 1 (request_world [alice_row]) =
  (inr (mkResponse (Text "Error deleting order: disk I/O error") 500),
   request_world [alice_row]).
Proof.
  split.
  - apply (proj1 (commit_failure_rolls_back failing []) alice 4
             (OperationalError "disk I/O error")
             (mkWorld [] (Some [alice_row])
                [mkOrder None (Some "Alice") (Some 4) (Some "2x burger")] []
                None None)).
    reflexivity.
  - apply (proj2 (commit_failure_rolls_back failing [alice_row]) 1
             (Order_of_row alice_row)
             (OperationalError "disk I/O error")
             (mkWorld [alice_row] (Some []) [] [Order_of_row alice_row]
                None None)).
    + reflexivity.
    + reflexivity.
Defined.

(** ** Invariants of the stored orders *)

(** C5 fails in its last part: once the order with the largest id is
    deleted, the next order is given that id again. *)
Lemma id_reused_after_delete :
  assigned_ids [(quiet, POST_order 4 alice);
                (quiet, GET_delete 1);
                (quiet, POST_order 7 bob)] [] = [1; 1] /\
  ~ NoDup (assigned_ids [(quiet, POST_order 4 alice);
                         (quiet, GET_delete 1);
                         (quiet, POST_order 7 bob)] []).
Proof.
  split; [reflexivity|].
  intros H. change (NoDup [1; 1]) in H.
  inversion H as [|? ? Hnot _]. apply Hnot. now left.
Qed.

Lemma NoDup_map_Some (l : list Z) : NoDup l -> NoDup (map Some l).
Proof.
  induction 1 as [|x l Hnot _ IH]; simpl; constructor; [|assumption].
  intros Hin. apply in_map_iff in Hin as [y [[= ->] Hy]]. contradiction.
Qed.

Lemma ids_list_all db : map id (list_all db) = map Some (rowids db).
Proof.
  rewrite list_all_eq. unfold rowids. rewrite !map_map. reflexivity.
Qed.

(** C5, as the code has it.  In every table the application can produce,
    every listed order has a customer name, a table number and an order
    text, no two listed orders share an id, and a successful create adds
    exactly one id, different from the id of every order stored at that
    time. *)
Theorem reachable_invariants db :
  reachable db ->
  (forall o, In o (list_all db) ->
             id o <> None /\ customer_name o <> None /\
             table_number o <> None /\ orders o <> None) /\
  NoDup (map id (list_all db)) /\
  (forall env tn form r db',
      serve env (POST_order tn form) db = (r, db') ->
      status r = 200 ->
      exists i,
        ~ In (Some i) (map id (list_all db)) /\
        Permutation (map id (list_all db'))
                    (Some i :: map id (list_all db))).
Proof.
  intros Hreach. destruct (reachable_table_ok _ Hreach) as [Hall Hnd].
  split; [|split].
  - intros o Ho. rewrite list_all_eq in Ho.
    apply in_map_iff in Ho as [r [<- Hr]].
    rewrite Forall_forall in Hall. destruct (Hall r Hr) as [_ [H1 [H2 H3]]].
    simpl. repeat split; try assumption. discriminate.
  - rewrite ids_list_all. now apply NoDup_map_Some.
  - intros env tn form r db' Hs Hr.
    destruct (serve_create_success _ _ _ _ _ _ Hs Hr)
      as [i [c [o [_ [_ [_ [_ [Hnew [-> _]]]]]]]]].
    apply new_rowid_fresh in Hnew as [Hfresh _].
    exists i. rewrite !ids_list_all. split.
    + intros Hin. apply in_map_iff in Hin as [j [[= ->] Hj]]. contradiction.
    + change (Some i :: map Some (rowids db))
        with (map Some (rowids (mkRow i (Some c) (Some (Z.of_N tn)) (Some o)
                                  :: db))).
      unfold rowids. apply Permutation_map, Permutation_map.
      apply insert_row_perm.
Qed.

Lemma reachable_invariants_witness :
  (forall o, In o (list_all [alice_row]) ->
             id o <> None /\ customer_name o <> None /\
             table_number o <> None /\ orders o <> None) /\
  NoDup (map id (list_all [alice_row])) /\
  (forall env tn form r db',
      serve env (POST_order tn form) [alice_row] = (r, db') ->
      status r = 200 ->
      exists i,
        ~ In (Some i) (map id (list_all [alice_row])) /\
        Permutation (map id (list_all db'))
                    (Some i :: map id (list_all [alice_row]))).
Proof.
  apply (reachable_invariants [alice_row]).
  exact (reachable_serve [] quiet (POST_order 4 alice) reachable_empty).
Defined.

(** ** Creating twice *)

(** C6 fails for a triple without a customer name: both creates are
    refused by the storage and no order is stored. *)
Lemma create_twice_without_name :
  let db1 := snd (serve quiet (POST_order 4 nameless) []) in
  let db2 := snd (serve quiet (POST_order 4 nameless) db1) in
  list_all db2 = [] /\
  ~ (exists o1 o2, In o1 (list_all db2) /\ In o2 (list_all db2)
                   /\ id o1 <> id o2).
Proof.
  split; [reflexivity|].
  intros [o1 [o2 [H _]]]. exact H.
Qed.

Lemma rowids_insert_row r (t : list Row) i :
  In i (rowids (insert_row r t)) <-> i = row_id r \/ In i (rowids t).
Proof.
  unfold rowids. rewrite !in_map_iff. split.
  - intros [x [<- Hx]]. apply insert_row_In in Hx as [-> | Hx];
      [now left | right; now exists x].
  - intros [-> | [x [<- Hx]]].
    + exists r. split; [reflexivity | apply insert_row_In; now left].
    + exists x. split; [reflexivity | apply insert_row_In; now right].
Qed.

Lemma insert_row_nonempty r (t : list Row) : insert_row r t <> [].
Proof.
  destruct t as [|x t]; simpl; [discriminate|].
  destruct (row_id r <? row_id x); discriminate.
Qed.

Lemma max_rowid_insert_row r (t : list Row) :
  max_rowid (insert_row r t) <= Z.max (row_id r) (max_rowid t).
Proof.
  pose proof (max_rowid_In _ (insert_row_nonempty r t)) as Hin.
  apply rowids_insert_row in Hin as [-> | Hin]; [lia|].
  apply max_rowid_bound in Hin. lia.
Qed.

(** Below the largest integer the engine does not run out of rowids. *)
Lemma new_rowid_next random (t : list Row) :
  max_rowid t < MAX_ROWID ->
  exists i, new_rowid random t = Some i /\ i <= max_rowid t + 1.
Proof.
  intros Hlt. unfold new_rowid. destruct t as [|r t].
  - exists 1. split; [reflexivity | simpl; lia].
  - revert Hlt. generalize (r :: t) as t0. intros t0 Hlt. cbv zeta.
    destruct (Z.ltb_spec (max_rowid t0) MAX_ROWID); [|lia].
    eexists. split; [reflexivity | lia].
Qed.

(** C6, as the code has it.  For a form that carries a customer name and
    an order text and a table number that fits the column, on a storage
    that works and a table that has ids to spare, two successive
    [POST /order/n] with the same form are both answered with 200 and
    store two orders with the submitted values under different ids,
    neither of which was in use before; both are listed afterwards.  And
    whenever two such requests are both answered with 200, whatever the
    table and the surroundings, the same holds. *)
Theorem create_twice env1 env2 db tn form :
  (forall c o,
      form_get "customer_name" form = Some c ->
      form_get "order_summary" form = Some o ->
      fits_int64 (Z.of_N tn) = true ->
      env_fault env1 = NoFault ->
      env_fault env2 = NoFault ->
      max_rowid db + 1 < MAX_ROWID ->
      exists i1 i2 r1 db1 r2 db2,
        serve env1 (POST_order tn form) db = (r1, db1) /\
        status r1 = 200 /\
        serve env2 (POST_order tn form) db1 = (r2, db2) /\
        status r2 = 200 /\
        i1 <> i2 /\
        ~ In i1 (rowids db) /\ ~ In i2 (rowids db) /\
        In (mkOrder (Some i1) (Some c) (Some (Z.of_N tn)) (Some o))
           (list_all db2) /\
        In (mkOrder (Some i2) (Some c) (Some (Z.of_N tn)) (Some o))
           (list_all db2)) /\
  (forall r1 db1 r2 db2,
      serve env1 (POST_order tn form) db = (r1, db1) ->
      status r1 = 200 ->
      serve env2 (POST_order tn form) db1 = (r2, db2) ->
      status r2 = 200 ->
      exists i1 i2,
        i1 <> i2 /\
        ~ In i1 (rowids db) /\ ~ In i2 (rowids db) /\
        In (mkOrder (Some i1) (form_get "customer_name" form)
              (Some (Z.of_N tn)) (form_get "order_summary" form))
           (list_all db2) /\
        In (mkOrder (Some i2) (form_get "customer_name" form)
              (Some (Z.of_N tn)) (form_get "order_summary" form))
           (list_all db2)).
Proof.
  assert (Hboth : forall r1 db1 r2 db2,
    serve env1 (POST_order tn form) db = (r1, db1) ->
    status r1 = 200 ->
    serve env2 (POST_order tn form) db1 = (r2, db2) ->
    status r2 = 200 ->
    exists i1 i2,
      i1 <> i2 /\
      ~ In i1 (rowids db) /\ ~ In i2 (rowids db) /\
      In (mkOrder (Some i1) (form_get "customer_name" form)
            (Some (Z.of_N tn)) (form_get "order_summary" form))
         (list_all db2) /\
      In (mkOrder (Some i2) (form_get "customer_name" form)
            (Some (Z.of_N tn)) (form_get "order_summary" form))
         (list_all db2)).
  { intros r1 db1 r2 db2 Hs1 Hr1 Hs2 Hr2.
    destruct (serve_create_success _ _ _ _ _ _ Hs1 Hr1)
      as [i1 [c [o [Hc [Ho [_ [_ [Hnew1 [-> _]]]]]]]]].
    destruct (serve_create_success _ _ _ _ _ _ Hs2 Hr2)
      as [i2 [c' [o' [Hc' [Ho' [_ [_ [Hnew2 [-> _]]]]]]]]].
    rewrite Hc in Hc'. rewrite Ho in Ho'.
    injection Hc' as <-. injection Ho' as <-.
    apply new_rowid_fresh in Hnew1 as [Hfresh1 _].
    apply new_rowid_fresh in Hnew2 as [Hfresh2 _].
    set (row1 := mkRow i1 (Some c) (Some (Z.of_N tn)) (Some o)) in *.
    set (row2 := mkRow i2 (Some c) (Some (Z.of_N tn)) (Some o)).
    exists i1, i2. rewrite Hc, Ho. repeat split.
    - intros ->. apply Hfresh2. apply rowids_insert_row. now left.
    - assumption.
    - intros Hin. apply Hfresh2. apply rowids_insert_row. now right.
    - rewrite list_all_eq.
      change (mkOrder (Some i1) (Some c) (Some (Z.of_N tn)) (Some o))
        with (Order_of_row row1).
      apply in_map. apply insert_row_In. right. apply insert_row_In. now left.
    - rewrite list_all_eq.
      change (mkOrder (Some i2) (Some c) (Some (Z.of_N tn)) (Some o))
        with (Order_of_row row2).
      apply in_map. apply insert_row_In. now left. }
  split; [|exact Hboth].
  intros c o Hc Ho Hn Hf1 Hf2 Hroom.
  destruct (new_rowid_next (env_random env1) db) as [i1 [Hnew1 Hi1]]; [lia|].
  pose proof (serve_create_ok env1 tn form db c o i1 Hc Ho Hn Hf1 Hnew1)
    as Hs1.
  set (db1 := insert_row (mkRow i1 (Some c) (Some (Z.of_N tn)) (Some o)) db)
    in *.
  assert (Hmax : max_rowid db1 < MAX_ROWID).
  { pose proof (max_rowid_insert_row
                  (mkRow i1 (Some c) (Some (Z.of_N tn)) (Some o)) db) as H.
    simpl in H. fold db1 in H. lia. }
  destruct (new_rowid_next (env_random env2) db1 Hmax) as [i2 [Hnew2 _]].
  pose proof (serve_create_ok env2 tn form db1 c o i2 Hc Ho Hn Hf2 Hnew2)
    as Hs2.
  destruct (Hboth _ _ _ _ Hs1 eq_refl Hs2 eq_refl)
    as [j1 [j2 [Hne [H1 [H2 [Hin1 Hin2]]]]]].
  rewrite Hc, Ho in Hin1, Hin2.
  exists j1, j2. do 4 eexists.
  split; [exact Hs1|]. split; [reflexivity|].
  split; [exact Hs2|]. split; [reflexivity|].
  repeat split; assumption.
Qed.

Lemma create_twice_witness :
  exists i1 i2 r1 db1 r2 db2,
    serve quiet (POST_order 4 alice) [] = (r1, db1) /\
    status r1 = 200 /\
    serve quiet (POST_order 4 alice) db1 = (r2, db2) /\
    status r2 = 200 /\
    i1 <> i2 /\
    ~ In i1 (rowids []) /\ ~ In i2 (rowids []) /\
    In (mkOrder (Some i1) (Some "Alice") (Some (Z.of_N 4)) (Some "2x burger"))
       (list_all db2) /\
    In (mkOrder (Some i2) (Some "Alice") (Some (Z.of_N 4)) (Some "2x burger"))
       (list_all db2).
Proof.
  apply (proj1 (create_twice quiet quiet [] 4%N alice) "Alice" "2x burger");
    reflexivity.
Defined.

(** ** Missing form fields *)

Lemma sql_insert_missing random text cn tn os t :
  cn = None \/ os = None ->
  exists e, sql_insert random text cn tn os t = inl e.
Proof.
  intros H. unfold sql_insert.
  destruct (bind_opt_int tn); [eauto|].
  destruct (new_rowid random t); [|eauto].
  destruct cn; simpl; [|eauto].
  destruct (not_null text "table_number" tn); [eauto|].
  destruct os; simpl; [|eauto].
  destruct H; discriminate.
Qed.

Lemma sql_insert_missing_message random text cn n os t i :
  cn = None \/ os = None ->
  fits_int64 n = true ->
  new_rowid random t = Some i ->
  sql_insert random text cn (Some n) os t =
  inl (IntegrityError
         (text ("NOT NULL constraint failed: order." ++
                match cn with None => "customer_name" | Some _ => "orders" end)
                %string)).
Proof.
  intros H Hn Hi. unfold sql_insert, bind_opt_int, bind_int.
  rewrite Hn, Hi. destruct cn; simpl; [|reflexivity].
  destruct os; simpl; [|reflexivity]. destruct H; discriminate.
Qed.

Lemma sql_insert_unstorable random text cn n os t :
  fits_int64 n = false ->
  sql_insert random text cn (Some n) os t = inl (OverflowError overflow_msg).
Proof.
  intros Hn. unfold sql_insert, bind_opt_int, bind_int. now rewrite Hn.
Qed.

(** C7 fails when the table number of the path does not fit the column:
    with the customer name missing, the exception the commit raises is
    the one of binding the number, no row reaches the table and no
    constraint is checked; the answer carries that message and not a NOT
    NULL violation. *)
Lemma missing_field_unstorable_number :
  form_get "customer_name" nameless = None /\
  insert_commit quiet (new_order nameless (Z.of_N huge)) []
  = inl (OverflowError overflow_msg) /\
  serve quiet (POST_order huge nameless) [] =
  (mkResponse (Text ("Error placing order: " ++ overflow_msg)%string) 500,
   []) /\
  (forall m, OverflowError overflow_msg <> IntegrityError m).
Proof.
  repeat split. intros m. discriminate.
Qed.

(** C7, as the code has it.  When the form lacks [customer_name] or
    [order_summary], the handler builds the order with [None] in that
    place and hands it to the session; the commit raises, the answer is
    the 500 page carrying the text of the exception, and the table is as
    before, whatever the surroundings.  With the storage working the
    exception is the one of the INSERT statement: for a table number that
    fits the column (and a table with a rowid to spare) the NOT NULL
    violation of the first column left empty, in the text the ORM gives
    it; for a table number that does not fit, the error of binding it. *)
Theorem missing_field_fails rd rn env db tn form :
  form_get "customer_name" form = None \/
  form_get "order_summary" form = None ->
  exists e,
    place_order env form (Z.of_N tn) (request_world_under rd rn db) =
    (inr (mkResponse (Text ("Error placing order: " ++ str e)%string) 500),
     request_world_under rd rn db) /\
    serve_under rd rn env (POST_order tn form) db =
    (mkResponse (Text ("Error placing order: " ++ str e)%string) 500, db) /\
    serve env (POST_order tn form) db =
    (mkResponse (Text ("Error placing order: " ++ str e)%string) 500, db) /\
    (env_fault env = NoFault ->
     sql_insert (env_random env) (env_text env)
       (form_get "customer_name" form)
       (Some (Z.of_N tn)) (form_get "order_summary" form) db = inl e) /\
    (env_fault env = NoFault ->
     fits_int64 (Z.of_N tn) = true ->
     new_rowid (env_random env) db <> None ->
     e = IntegrityError
           (env_text env
              ("NOT NULL constraint failed: order." ++
               match form_get "customer_name" form with
               | None => "customer_name"
               | Some _ => "orders"
               end)%string)) /\
    (env_fault env = NoFault ->
     fits_int64 (Z.of_N tn) = false ->
     e = OverflowError overflow_msg).
Proof.
  intros Hmiss.
  destruct (sql_insert_missing (env_random env) (env_text env) _
              (Some (Z.of_N tn)) _ db Hmiss) as [e0 He0].
  assert (Hc : exists e,
             insert_commit env (new_order form (Z.of_N tn)) db = inl e /\
             (env_fault env = NoFault -> e = e0)).
  { unfold insert_commit, new_order. simpl. rewrite He0.
    destruct (env_fault env); eauto; eexists; (split; [reflexivity|]);
      discriminate. }
  destruct Hc as [e [Hc He]]. exists e. repeat split.
  - rewrite place_order_run_under, Hc. reflexivity.
  - unfold serve_under, dispatch. rewrite place_order_run_under, Hc.
    reflexivity.
  - unfold serve, dispatch. rewrite place_order_run, Hc. reflexivity.
  - intros Hf. now rewrite (He Hf).
  - intros Hf Hn Hnew. rewrite (He Hf).
    destruct (new_rowid (env_random env) db) as [i|] eqn:Hi;
      [|now contradiction Hnew].
    rewrite (sql_insert_missing_message _ _ _ _ _ _ _ Hmiss Hn Hi) in He0.
    now injection He0 as <-.
  - intros Hf Hn. rewrite (He Hf).
    rewrite (sql_insert_unstorable _ _ _ _ _ _ Hn) in He0.
    now injection He0 as <-.
Qed.

Lemma missing_field_fails_witness :
  exists e,
    place_order quiet nameless (Z.of_N 4) (request_world_under None None []) =
    (inr (mkResponse (Text ("Error placing order: " ++ str e)%string) 500),
     request_world_under None None []) /\
    serve_under None None quiet (POST_order 4 nameless) [] =
    (mkResponse (Text ("Error placing order: " ++ str e)%string) 500, []) /\
    serve quiet (POST_order 4 nameless) [] =
    (mkResponse (Text ("Error placing order: " ++ str e)%string) 500, []) /\
    (env_fault quiet = NoFault ->
     sql_insert (env_random quiet) (env_text quiet)
       (form_get "customer_name" nameless)
       (Some (Z.of_N 4)) (form_get "order_summary" nameless) [] = inl e) /\
    (env_fault quiet = NoFault ->
     fits_int64 (Z.of_N 4) = true ->
     new_rowid (env_random quiet) [] <> None ->
     e = IntegrityError
           (env_text quiet
              ("NOT NULL constraint failed: order." ++
               match form_get "customer_name" nameless with
               | None => "customer_name"
               | Some _ => "orders"
               end)%string)) /\
    (env_fault quiet = NoFault ->
     fits_int64 (Z.of_N 4) = false ->
     e = OverflowError overflow_msg).
Proof.
  apply (missing_field_fails None None quiet [] 4%N nameless).
  left. reflexivity.
Defined.

(** ** The kitchen view *)

(** C8.  The kitchen handler only reads: it returns the world it was
    given (same table, no transaction opened, nothing pending), it always
    answers with status 200 and never raises, and on the empty table the
    sequence it lists is empty. *)
Theorem list_all_read_only env db :
  query_all (request_world db) = (inr (list_all db), request_world db) /\
  kitchen (request_world db) =
  (inr (render_template "kitchen.html"
          [("orders",
            TDicts (map (fun order => dict (Order_iter order))
                        (list_all db)))]),
   request_world db) /\
  snd (serve env GET_kitchen db) = db /\
  status (fst (serve env GET_kitchen db)) = 200 /\
  list_all [] = [] /\
  fst (serve env GET_kitchen []) =
  render_template "kitchen.html" [("orders", TDicts [])].
Proof.
  repeat split.
Qed.

(** C9.  [dict(order)] is exactly the four pairs of [id],
    [customer_name], [table_number] and [orders], in this order, and the
    kitchen view is rendered from one such record per stored row, in the
    order of the rows. *)
Theorem dict_of_order (order : Order) :
  dict (Order_iter order) =
  [("id", of_int (id order));
   ("customer_name", of_str (customer_name order));
   ("table_number", of_int (table_number order));
   ("orders", of_str (orders order))] /\
  forall env db,
    fst (serve env GET_kitchen db) =
    render_template "kitchen.html"
      [("orders",
        TDicts (map (fun r =>
                       [("id", VInt (row_id r));
                        ("customer_name", of_str (row_customer_name r));
                        ("table_number", of_int (row_table_number r));
                        ("orders", of_str (row_orders r))])
                    db))].
Proof.
  split; [reflexivity|].
  intros env db. unfold serve, dispatch, kitchen, bind, query_all, ret.
  change (visible (request_world db)) with db. simpl.
  rewrite map_map. reflexivity.
Qed.

(** ** The order summary *)

(** C10.  The page that answers a successful [POST /order/n] is the
    order-summary template over the values of the row the request wrote:
    its [customer_name], [table_number] and [order_summary] are that
    row's customer name, table number (the number of the path) and order
    text.  The row is the only new one in the table. *)
Theorem order_summary_echoes_row env db tn form r db' :
  serve env (POST_order tn form) db = (r, db') ->
  status r = 200 ->
  exists row,
    In row db' /\
    ~ In (row_id row) (rowids db) /\
    (forall x, In x db' -> x = row \/ In x db) /\
    row_table_number row = Some (Z.of_N tn) /\
    row_customer_name row = form_get "customer_name" form /\
    row_orders row = form_get "order_summary" form /\
    body r =
    Html "order_summary.html"
      [("customer_name", TVal (of_str (row_customer_name row)));
       ("table_number", TVal (of_int (row_table_number row)));
       ("order_summary", TVal (of_str (row_orders row)))].
Proof.
  intros Hs Hr.
  destruct (serve_create_success _ _ _ _ _ _ Hs Hr)
    as [i [c [o [Hc [Ho [_ [_ [Hnew [-> ->]]]]]]]]].
  apply new_rowid_fresh in Hnew as [Hfresh _].
  exists (mkRow i (Some c) (Some (Z.of_N tn)) (Some o)).
  rewrite Hc, Ho. simpl. repeat split; try assumption.
  - apply insert_row_In. now left.
  - intros x Hx. now apply insert_row_In in Hx.
Qed.

Lemma order_summary_echoes_row_witness :
  exists row,
    In row [alice_row] /\
    ~ In (row_id row) (rowids []) /\
    (forall x, In x [alice_row] -> x = row \/ In x []) /\
    row_table_number row = Some 4 /\
    row_customer_name row = Some "Alice" /\
    row_orders row = Some "2x burger" /\
    body (order_summary_page "Alice" 4 "2x burger") =
    Html "order_summary.html"
      [("customer_name", TVal (of_str (row_customer_name row)));
       ("table_number", TVal (of_int (row_table_number row)));
       ("order_summary", TVal (of_str (row_orders row)))].
Proof.
  apply (order_summary_echoes_row quiet [] 4%N alice
           (order_summary_page "Alice" 4 "2x burger") [alice_row]);
    reflexivity.
Defined.

(** * Further properties of the handlers *)

(** ** What a delete request amounts to *)

Lemma filter_absent i (t : list Row) :
  ~ In i (rowids t) -> filter (fun r => negb (row_id r =? i)) t = t.
Proof.
  induction t as [|x t IH]; simpl; [reflexivity|].
  intros Hnot. destruct (Z.eqb_spec (row_id x) i) as [Heq | Hne]; simpl.
  - exfalso. apply Hnot. now left.
  - f_equal. apply IH. tauto.
Qed.


(** The three ways a [GET /delete/i] can end. *)
Lemma serve_delete_cases env i db :
  (fits_int64 (Z.of_N i) = true /\ In (Z.of_N i) (rowids db) /\
   env_fault env = NoFault /\
   serve env (GET_delete i) db =
   (redirect "/kitchen/",
    filter (fun r => negb (row_id r =? Z.of_N i)) db)) \/
  (fits_int64 (Z.of_N i) = true /\ ~ In (Z.of_N i) (rowids db) /\
   serve env (GET_delete i) db = (mkResponse (Text "Not Found") 404, db)) \/
  ((fits_int64 (Z.of_N i) = false \/
    (In (Z.of_N i) (rowids db) /\ env_fault env <> NoFault)) /\
   exists r, status r = 500 /\ serve env (GET_delete i) db = (r, db)).
Proof.
  unfold serve, dispatch. rewrite delete_order_run.
  destruct (sql_get (Z.of_N i) db) as [e | [r|]] eqn:Hget.
  - right. right. unfold sql_get, bind_int in Hget.
    destruct (fits_int64 (Z.of_N i)) eqn:Hi; [discriminate|].
    injection Hget as <-. split; [now left|]. eexists. split; [|reflexivity].
    reflexivity.
  - destruct (sql_get_found _ _ _ Hget) as [Hi [Hrid Hin]].
    assert (Hin' : In (Z.of_N i) (rowids db)).
    { rewrite <- Hrid. unfold rowids. now apply in_map. }
    unfold delete_commit, sql_delete, bind_int. rewrite Hrid, Hi.
    destruct (env_fault env) eqn:Hf.
    + left. auto.
    + right. right. split; [right; split; [assumption | discriminate]|].
      eexists. split; [|reflexivity]. reflexivity.
    + right. right. split; [right; split; [assumption | discriminate]|].
      eexists. split; [|reflexivity]. reflexivity.
  - right. left. unfold sql_get, bind_int in Hget.
    destruct (fits_int64 (Z.of_N i)) eqn:Hi; [|discriminate].
    injection Hget as Hfind. repeat split.
    intros Hin. unfold rowids in Hin. apply in_map_iff in Hin as [x [Hx Hin]].
    apply (find_none _ _ Hfind) in Hin. apply Z.eqb_neq in Hin. auto.
Qed.

(** The two ways a [POST /order/n] can end. *)
Lemma serve_create_cases env n form db :
  (exists i c o,
      form_get "customer_name" form = Some c /\
      form_get "order_summary" form = Some o /\
      new_rowid (env_random env) db = Some i /\
      serve env (POST_order n form) db =
      (order_summary_page c (Z.of_N n) o,
       insert_row (mkRow i (Some c) (Some (Z.of_N n)) (Some o)) db)) \/
  (exists e,
      serve env (POST_order n form) db =
      (mkResponse (Text ("Error placing order: " ++ str e)%string) 500, db)).
Proof.
  destruct (serve env (POST_order n form) db) as [r db'] eqn:Hs.
  destruct (Z.eq_dec (status r) 200) as [Hr | Hr].
  - left. destruct (serve_create_success _ _ _ _ _ _ Hs Hr)
      as [i [c [o [Hc [Ho [_ [_ [Hnew [-> ->]]]]]]]]].
    now exists i, c, o.
  - right. destruct (serve_create_failure _ _ _ _ _ _ Hs Hr)
      as [-> [e [_ ->]]].
    now exists e.
Qed.

(** ** Requests under any surroundings *)

Lemma serve_under_working env req db :
  serve_under None None env req db = serve env req db.
Proof. reflexivity. Qed.

(** A [GET /delete/i]: when the storage cannot be read the lookup raises
    and nothing happens; else the templates play no role. *)
Lemma serve_under_delete rd rn env i db :
  serve_under rd rn env (GET_delete i) db =
  match rd with
  | Some _ => (server_error, db)
  | None => serve env (GET_delete i) db
  end.
Proof.
  unfold serve_under, serve, dispatch.
  rewrite delete_order_run_under, delete_order_run.
  destruct rd as [m|]; [reflexivity|].
  destruct (sql_get (Z.of_N i) db) as [e | [r|]]; try reflexivity.
  destruct (delete_commit env (row_id r) db); reflexivity.
Qed.

(** A [POST /order/n]: either the commit raises, and the answer is the
    handler's own error page over the table as it was; or the commit goes
    through, and the answer is the page when the instance can be loaded
    again and the template rendered, and the error page of the server
    when not, over the table with the new row in both cases. *)
Lemma serve_under_create rd rn env n form db :
  (exists e,
      insert_commit env (new_order form (Z.of_N n)) db = inl e /\
      serve_under rd rn env (POST_order n form) db =
      (mkResponse (Text ("Error placing order: " ++ str e)%string) 500, db))
  \/
  (exists i c o,
      form_get "customer_name" form = Some c /\
      form_get "order_summary" form = Some o /\
      fits_int64 (Z.of_N n) = true /\
      env_fault env = NoFault /\
      new_rowid (env_random env) db = Some i /\
      serve_under rd rn env (POST_order n form) db =
      (match rd, rn with
       | None, None => order_summary_page c (Z.of_N n) o
       | _, _ => server_error
       end,
       insert_row (mkRow i (Some c) (Some (Z.of_N n)) (Some o)) db)).
Proof.
  unfold serve_under, dispatch. rewrite place_order_run_under.
  destruct (insert_commit env (new_order form (Z.of_N n)) db)
    as [e | [i t']] eqn:Hc.
  - left. now exists e.
  - right. apply insert_commit_inr in Hc as [Hf Hins]. simpl in Hins.
    apply sql_insert_inr in Hins
      as [[c [n' [o [Hcn [[= <-] [Hos Hn]]]]]] [Hnew ->]].
    exists i, c, o. rewrite Hcn, Hos.
    repeat split; try assumption.
    destruct rd as [m|]; [reflexivity|]. destruct rn as [m|]; reflexivity.
Qed.

Lemma serve_under_kitchen rd rn env db :
  serve_under rd rn env GET_kitchen db =
  (match rd, rn with
   | None, None =>
       render_template "kitchen.html"
         [("orders", TDicts (map kitchen_record db))]
   | _, _ => server_error
   end, db).
Proof.
  unfold serve_under, dispatch. rewrite kitchen_run_under.
  destruct rd as [m|]; [reflexivity|]. destruct rn as [m|]; [reflexivity|].
  rewrite map_map. reflexivity.
Qed.

Lemma serve_under_menu rd rn env n db :
  serve_under rd rn env (GET_menu n) db =
  (match rn with
   | None =>
       render_template "main_menu.html"
         [("table_number", TVal (VInt (Z.of_N n)))]
   | Some _ => server_error
   end, db).
Proof.
  unfold serve_under, dispatch, main_menu, render. simpl.
  destruct rn as [m|]; reflexivity.
Qed.

(** ** Status codes and effects *)

(** X1.  The status of every answer, whatever the surroundings: the menu
    is answered with 200 when its template renders and with 500 when not;
    the kitchen view with 200 when the storage can be read and the
    template renders, and with 500 when not; a submitted order with 200
    or 500; a delete with 302, 404 or 500. *)
Theorem status_of_each_route rd rn env req db :
  match req with
  | GET_menu _ =>
      status (fst (serve_under rd rn env req db)) =
      match rn with None => 200 | Some _ => 500 end
  | GET_kitchen =>
      status (fst (serve_under rd rn env req db)) =
      match rd, rn with None, None => 200 | _, _ => 500 end
  | POST_order _ _ =>
      status (fst (serve_under rd rn env req db)) = 200 \/
      status (fst (serve_under rd rn env req db)) = 500
  | GET_delete _ =>
      status (fst (serve_under rd rn env req db)) = 302 \/
      status (fst (serve_under rd rn env req db)) = 404 \/
      status (fst (serve_under rd rn env req db)) = 500
  end.
Proof.
  destruct req as [n | n form | | n].
  - rewrite serve_under_menu. now destruct rn.
  - destruct (serve_under_create rd rn env n form db)
      as [[e [_ ->]] | [i [c [o [_ [_ [_ [_ [_ ->]]]]]]]]]; [now right|].
    destruct rd; [now right|]. destruct rn; [now right | now left].
  - rewrite serve_under_kitchen. destruct rd; [reflexivity|]. now destruct rn.
  - rewrite serve_under_delete. destruct rd; [now right; right|].
    destruct (serve_delete_cases env n db)
      as [[_ [_ [_ ->]]] | [[_ [_ ->]] | [_ [r [Hr ->]]]]]; simpl; auto.
Qed.

(** X2.  The error handling of a delete is complete: a [GET /delete/i]
    that is not answered with the redirect leaves the table exactly as it
    was, whether the lookup failed, the order was missing or the commit
    raised, and whatever the surroundings.  The menu and the kitchen view
    never change the table. *)
Theorem only_redirect_deletes rd rn env req db :
  (forall n form, req <> POST_order n form) ->
  status (fst (serve_under rd rn env req db)) <> 302 ->
  snd (serve_under rd rn env req db) = db.
Proof.
  intros Hreq Hr. destruct req as [n | n form | | n].
  - now rewrite serve_under_menu.
  - now contradiction (Hreq n form).
  - now rewrite serve_under_kitchen.
  - rewrite serve_under_delete in *. destruct rd; [reflexivity|].
    destruct (serve_delete_cases env n db)
      as [[_ [_ [_ Heq]]] | [[_ [_ Heq]] | [_ [r [_ Heq]]]]];
      rewrite Heq in *; simpl in *; [now contradiction Hr | reflexivity..].
Qed.

Lemma only_redirect_deletes_witness :
  snd (serve_under (Some "unable to open database file") None
         failing (GET_delete 1) [alice_row]) = [alice_row].
Proof.
  apply (only_redirect_deletes (Some "unable to open database file") None
           failing (GET_delete 1) [alice_row]).
  - discriminate.
  - vm_compute. discriminate.
Defined.

Lemma filter_removes_one i (t : list Row) :
  NoDup (rowids t) -> In i (rowids t) ->
  S (List.length (filter (fun r => negb (row_id r =? i)) t)) = List.length t.
Proof.
  induction t as [|x t IH]; simpl; [tauto|].
  intros Hnd Hin. inversion Hnd as [|? ? Hnot Hnd']; subst.
  destruct (Z.eqb_spec (row_id x) i) as [Heq | Hne]; simpl.
  - subst i. now rewrite filter_absent.
  - f_equal. apply IH; [assumption|]. destruct Hin; [contradiction | assumption].
Qed.

(** X3.  On a table the application produced, and whatever the
    surroundings, a request changes the number of stored orders by one
    or not at all: the menu and the kitchen view leave the table as it
    was; a delete removes exactly one row when it is answered with 302
    and none otherwise; a submitted order adds exactly one row when it is
    answered with 200, and otherwise adds one row or none. *)
Theorem one_row_at_a_time rd rn env req db :
  reachable db ->
  match req with
  | POST_order _ _ =>
      (status (fst (serve_under rd rn env req db)) = 200 ->
       List.length (snd (serve_under rd rn env req db)) = S (List.length db))
      /\
      (snd (serve_under rd rn env req db) = db \/
       List.length (snd (serve_under rd rn env req db)) = S (List.length db))
  | GET_delete _ =>
      if status (fst (serve_under rd rn env req db)) =? 302
      then S (List.length (snd (serve_under rd rn env req db)))
           = List.length db
      else snd (serve_under rd rn env req db) = db
  | _ => snd (serve_under rd rn env req db) = db
  end.
Proof.
  intros Hreach. destruct (reachable_table_ok _ Hreach) as [_ Hnd].
  destruct req as [n | n form | | n].
  - now rewrite serve_under_menu.
  - destruct (serve_under_create rd rn env n form db)
      as [[e [_ ->]] | [i [c [o [_ [_ [_ [_ [_ ->]]]]]]]]]; simpl.
    + split; [discriminate | now left].
    + rewrite (Permutation_length (insert_row_perm _ db)). simpl.
      split; [reflexivity | now right].
  - now rewrite serve_under_kitchen.
  - rewrite serve_under_delete. destruct rd; [reflexivity|].
    destruct (serve_delete_cases env n db)
      as [[_ [Hin [_ ->]]] | [[_ [_ ->]] | [_ [r [Hr ->]]]]]; simpl.
    + now apply filter_removes_one.
    + reflexivity.
    + rewrite Hr. reflexivity.
Qed.

Lemma one_row_at_a_time_witness :
  S (List.length (snd (serve_under None (Some "kitchen.html") quiet
                         (GET_delete 1) [alice_row])))
  = List.length [alice_row].
Proof.
  apply (one_row_at_a_time None (Some "kitchen.html") quiet (GET_delete 1)
           [alice_row]).
  exact (reachable_serve [] quiet (POST_order 4 alice) reachable_empty).
Defined.

(** ** What the [try] blocks leave out *)

(** X4.  The exceptions that leave a handler, whatever the surroundings.
    From [place_order] none of the commit escapes: when it raises, the
    commit has gone through, the new row is in the table, and the
    exception is the one of loading the instance again or of rendering
    the page (lines 84-89).  From [delete_order] only the exceptions of
    its lookup escape (the storage cannot be read, no such order, or an
    id that cannot be bound), and then the world is as the request found
    it. *)
Theorem exceptions_that_escape rd rn env db :
  (forall form tn e w',
      place_order env form tn (request_world_under rd rn db) = (inl e, w') ->
      (exists i, insert_commit env (new_order form tn) db = inr (i, table w'))
      /\ txn w' = None /\ session_new w' = [] /\
      ((exists m, rd = Some m /\ e = OperationalError m) \/
       (exists m, rd = None /\ rn = Some m /\ e = TemplateError m))) /\
  (forall i e w',
      delete_order env i (request_world_under rd rn db) = (inl e, w') ->
      w' = request_world_under rd rn db /\
      ((exists m, rd = Some m /\ e = OperationalError m) \/
       (rd = None /\ fits_int64 i = true /\ ~ In i (rowids db) /\
        e = NotFound) \/
       (rd = None /\ fits_int64 i = false /\
        e = OverflowError overflow_msg))).
Proof.
  split.
  - intros form tn e w'. rewrite place_order_run_under.
    destruct (insert_commit env (new_order form tn) db) as [e0 | [i t']];
      [discriminate|].
    destruct rd as [m|]; [|destruct rn as [m|]]; intros [= <- <-];
      (split; [now exists i|]); repeat split; [left | right]; now exists m.
  - intros i e w'. rewrite delete_order_run_under.
    destruct rd as [m|].
    + intros [= <- <-]. split; [reflexivity|]. left. now exists m.
    + destruct (sql_get i db) as [e0 | [r|]] eqn:Hget.
      * intros [= <- <-]. split; [reflexivity|]. right. right.
        unfold sql_get, bind_int in Hget.
        destruct (fits_int64 i); [discriminate|].
        now injection Hget as <-.
      * destruct (delete_commit env (row_id r) db); discriminate.
      * intros [= <- <-]. split; [reflexivity|]. right. left.
        unfold sql_get, bind_int in Hget.
        destruct (fits_int64 i) eqn:Hi; [|discriminate].
        injection Hget as Hfind. repeat split.
        intros Hin. unfold rowids in Hin.
        apply in_map_iff in Hin as [x [Hx Hin]].
        apply (find_none _ _ Hfind) in Hin. apply Z.eqb_neq in Hin. auto.
Qed.

Lemma exceptions_that_escape_witness :
  (exists i, insert_commit quiet (new_order alice 4) [] = inr (i, [alice_row]))
  /\ txn (request_world_under None (Some "order_summary.html") [alice_row])
     = None
  /\ session_new
       (request_world_under None (Some "order_summary.html") [alice_row]) = []
  /\ ((exists m, @None string = Some m /\
                 TemplateError "order_summary.html" = OperationalError m) \/
      (exists m, @None string = None /\
                 Some "order_summary.html" = Some m /\
                 TemplateError "order_summary.html" = TemplateError m)).
Proof.
  apply (proj1 (exceptions_that_escape None (Some "order_summary.html")
                  quiet []) alice 4 (TemplateError "order_summary.html")
           (request_world_under None (Some "order_summary.html") [alice_row])).
  reflexivity.
Defined.

(** X8.  The page of [place_order] is built after the commit and outside
    the [try] (lines 84-89): when the commit goes through and loading the
    instance again or rendering the template fails, the request is
    answered with the error page of the server, status 500, and the order
    is stored all the same. *)
Theorem stored_despite_error rd rn env db n form c o i :
  form_get "customer_name" form = Some c ->
  form_get "order_summary" form = Some o ->
  fits_int64 (Z.of_N n) = true ->
  env_fault env = NoFault ->
  new_rowid (env_random env) db = Some i ->
  rd <> None \/ rn <> None ->
  serve_under rd rn env (POST_order n form) db =
  (server_error, insert_row (mkRow i (Some c) (Some (Z.of_N n)) (Some o)) db)
  /\ status server_error = 500
  /\ In (mkOrder (Some i) (Some c) (Some (Z.of_N n)) (Some o))
        (list_all (snd (serve_under rd rn env (POST_order n form) db))).
Proof.
  intros Hc Ho Hn Hf Hnew Hfail.
  assert (Hs : serve_under rd rn env (POST_order n form) db =
               (server_error,
                insert_row (mkRow i (Some c) (Some (Z.of_N n)) (Some o)) db)).
  { unfold serve_under, dispatch. rewrite place_order_run_under.
    unfold insert_commit, new_order. rewrite Hf. simpl. rewrite Hc, Ho.
    rewrite (sql_insert_ok _ _ c (Z.of_N n) o db i Hn Hnew).
    destruct rd as [m|]; [reflexivity|]. destruct rn as [m|]; [reflexivity|].
    destruct Hfail as [H | H]; now contradiction H. }
  rewrite Hs. repeat split. simpl snd. rewrite list_all_eq.
  change (mkOrder (Some i) (Some c) (Some (Z.of_N n)) (Some o))
    with (Order_of_row (mkRow i (Some c) (Some (Z.of_N n)) (Some o))).
  apply in_map. apply insert_row_In. now left.
Qed.

Lemma stored_despite_error_witness :
  serve_under None (Some "order_summary.html") quiet (POST_order 4 alice) [] =
  (server_error,
   insert_row (mkRow 1 (Some "Alice") (Some (Z.of_N 4)) (Some "2x burger")) [])
  /\ status server_error = 500
  /\ In (mkOrder (Some 1) (Some "Alice") (Some (Z.of_N 4)) (Some "2x burger"))
        (list_all (snd (serve_under None (Some "order_summary.html") quiet
                          (POST_order 4 alice) []))).
Proof.
  apply (stored_despite_error None (Some "order_summary.html") quiet [] 4%N
           alice "Alice" "2x burger" 1); try reflexivity.
  right. discriminate.
Defined.

(** ** Create and delete together *)

Lemma filter_insert_row r (t : list Row) :
  ~ In (row_id r) (rowids t) ->
  filter (fun x => negb (row_id x =? row_id r)) (insert_row r t) = t.
Proof.
  induction t as [|x t IH]; simpl; intros Hnot.
  - now rewrite Z.eqb_refl.
  - assert (Hx : (row_id x =? row_id r) = false)
      by (apply Z.eqb_neq; intros Heq; apply Hnot; now left).
    destruct (row_id r <? row_id x); simpl.
    + rewrite Z.eqb_refl, Hx. simpl. f_equal. apply filter_absent. tauto.
    + rewrite Hx. simpl. f_equal. apply IH. tauto.
Qed.

Lemma reachable_positive db :
  reachable db -> Forall (fun r => 1 <= row_id r) db.
Proof.
  intros Hreach. destruct (reachable_table_ok _ Hreach) as [Hall _].
  apply (Forall_impl _ (fun r H => proj1 (proj1 H)) Hall).
Qed.

Lemma fresh_ids_insert db r :
  ~ In (row_id r) (rowids db) ->
  fresh_ids db (insert_row r db) = [row_id r].
Proof.
  intros Hfresh. unfold fresh_ids.
  assert (Hgen : forall t, incl (rowids t) (rowids db) ->
             filter (fun j => negb (rowid_used j db)) (rowids (insert_row r t))
             = [row_id r]).
  { assert (Hold : forall t, incl (rowids t) (rowids db) ->
               filter (fun j => negb (rowid_used j db)) (rowids t) = []).
    { induction t as [|x t IH]; simpl; intros Hincl; [reflexivity|].
      assert (Hx : rowid_used (row_id x) db = true)
        by (apply rowid_used_spec, Hincl; now left).
      rewrite Hx. simpl. apply IH. intros j Hj. apply Hincl. now right. }
    apply rowid_unused_spec in Hfresh.
    induction t as [|x t IH]; simpl; intros Hincl.
    - now rewrite Hfresh.
    - assert (Hx : rowid_used (row_id x) db = true)
        by (apply rowid_used_spec, Hincl; now left).
      destruct (row_id r <? row_id x); simpl; rewrite ?Hfresh, Hx; simpl.
      + f_equal. apply Hold. intros j Hj. apply Hincl. now right.
      + apply IH. intros j Hj. apply Hincl. now right. }
  apply Hgen, incl_refl.
Qed.

(** A successful create on a table the application produced, and the
    delete of what it created. *)
Lemma create_delete_inverse env db n form r db1 :
  reachable db ->
  serve env (POST_order n form) db = (r, db1) ->
  status r = 200 ->
  exists i : N,
    new_rowid (env_random env) db = Some (Z.of_N i) /\
    ~ In (Z.of_N i) (rowids db) /\
    In (Z.of_N i) (rowids db1) /\
    fresh_ids db db1 = [Z.of_N i] /\
    forall env', env_fault env' = NoFault ->
                 serve env' (GET_delete i) db1 = (redirect "/kitchen/", db).
Proof.
  intros Hreach Hs Hr.
  destruct (serve_create_success _ _ _ _ _ _ Hs Hr)
    as [i [c [o [_ [_ [_ [_ [Hnew [-> _]]]]]]]]].
  pose proof (new_rowid_positive _ _ _ (reachable_positive _ Hreach) Hnew)
    as Hpos.
  pose proof (new_rowid_fresh _ _ _ Hnew) as [Hfresh Hmax].
  set (row := mkRow i (Some c) (Some (Z.of_N n)) (Some o)).
  assert (Hin : In i (rowids (insert_row row db))).
  { unfold rowids. apply in_map_iff. exists row.
    split; [reflexivity | apply insert_row_In; now left]. }
  exists (Z.to_N i). rewrite Z2N.id by lia. repeat split; try assumption.
  - now apply (fresh_ids_insert db row).
  - intros env' Hf.
    destruct (serve_delete_cases env' (Z.to_N i) (insert_row row db))
      as [[_ [_ [_ Heq]]] | [[_ [Hnot _]] | [[Hi | [_ Hf']] _]]];
      rewrite ?Z2N.id in * by lia.
    + rewrite Heq. f_equal. now apply (filter_insert_row row db).
    + contradiction.
    + exfalso. assert (fits_int64 i = true)
        by (apply fits_int64_spec; unfold MAX_ROWID in *; lia).
      congruence.
    + contradiction.
Qed.

(** X5.  Deleting the order a request has just created restores the
    table exactly: on a table the application produced, after a
    [POST /order/n] answered with 200 the table holds one id [i] it did
    not hold, and a [GET /delete/i] under a working storage redirects to
    the kitchen view and leaves the table the POST started from. *)
Theorem create_then_delete_restores env db n form r db1 :
  reachable db ->
  serve env (POST_order n form) db = (r, db1) ->
  status r = 200 ->
  exists i : N,
    ~ In (Z.of_N i) (rowids db) /\
    In (Z.of_N i) (rowids db1) /\
    forall env', env_fault env' = NoFault ->
                 serve env' (GET_delete i) db1 = (redirect "/kitchen/", db).
Proof.
  intros Hreach Hs Hr.
  destruct (create_delete_inverse _ _ _ _ _ _ Hreach Hs Hr)
    as [i [_ [Hfresh [Hin [_ Hdel]]]]].
  now exists i.
Qed.

Lemma create_then_delete_restores_witness :
  exists i : N,
    ~ In (Z.of_N i) (rowids [alice_row]) /\
    In (Z.of_N i)
       (rowids [alice_row; mkRow 2 (Some "Bob") (Some 7) (Some "1x soup")]) /\
    forall env', env_fault env' = NoFault ->
                 serve env' (GET_delete i)
                   [alice_row; mkRow 2 (Some "Bob") (Some 7) (Some "1x soup")]
                 = (redirect "/kitchen/", [alice_row]).
Proof.
  apply (create_then_delete_restores quiet [alice_row] 7%N bob
           (order_summary_page "Bob" 7 "1x soup")).
  - exact (reachable_serve [] quiet (POST_order 4 alice) reachable_empty).
  - reflexivity.
  - reflexivity.
Defined.

(** X6.  The id of the order created last is handed out again when that
    order is deleted at once: on a table the application produced, if a
    create stores an order under id [i], the very next request deletes
    that order, and the request right after it is a create that succeeds
    (the engine drawing the same candidates, which matters only when the
    ids are exhausted), the new order is stored under [i] too. *)
Theorem deleted_id_is_reassigned env db n form r db1 :
  reachable db ->
  serve env (POST_order n form) db = (r, db1) ->
  status r = 200 ->
  exists i : N,
    fresh_ids db db1 = [Z.of_N i] /\
    forall env' env'' n' form' r' db3,
      env_fault env' = NoFault ->
      env_random env'' = env_random env ->
      serve env'' (POST_order n' form')
        (snd (serve env' (GET_delete i) db1)) = (r', db3) ->
      status r' = 200 ->
      fresh_ids (snd (serve env' (GET_delete i) db1)) db3 = [Z.of_N i].
Proof.
  intros Hreach Hs Hr.
  destruct (create_delete_inverse _ _ _ _ _ _ Hreach Hs Hr)
    as [i [Hnew [Hfresh [_ [Hids Hdel]]]]].
  exists i. split; [assumption|].
  intros env' env'' n' form' r' db3 Hf Hrand. rewrite (Hdel env' Hf). simpl.
  intros Hs' Hr'.
  destruct (serve_create_success _ _ _ _ _ _ Hs' Hr')
    as [j [c [o [_ [_ [_ [_ [Hnew' [-> _]]]]]]]]].
  rewrite Hrand, Hnew in Hnew'. injection Hnew' as <-.
  now apply (fresh_ids_insert db (mkRow (Z.of_N i) (Some c) (Some (Z.of_N n'))
                                    (Some o))).
Qed.

Lemma deleted_id_is_reassigned_witness :
  exists i : N,
    fresh_ids [] [alice_row] = [Z.of_N i] /\
    forall env' env'' n' form' r' db3,
      env_fault env' = NoFault ->
      env_random env'' = env_random quiet ->
      serve env'' (POST_order n' form')
        (snd (serve env' (GET_delete i) [alice_row])) = (r', db3) ->
      status r' = 200 ->
      fresh_ids (snd (serve env' (GET_delete i) [alice_row])) db3
      = [Z.of_N i].
Proof.
  apply (deleted_id_is_reassigned quiet [] 4%N alice
           (order_summary_page "Alice" 4 "2x burger") [alice_row]).
  - exact reachable_empty.
  - reflexivity.
  - reflexivity.
Defined.

(** ** Ids handed out in a row *)

Lemma insert_row_last r (t : list Row) :
  (forall x, In x t -> row_id x < row_id r) ->
  insert_row r t = t ++ [r].
Proof.
  induction t as [|x t IH]; simpl; intros Hlt; [reflexivity|].
  destruct (Z.ltb_spec (row_id r) (row_id x)) as [Hrx | _].
  - specialize (Hlt x (or_introl eq_refl)). lia.
  - f_equal. apply IH. intros y Hy. apply Hlt. now right.
Qed.

Lemma counted_rowids_In (t : list Row) k i :
  rowids t = map Z.of_nat (seq 1 k) ->
  In i (rowids t) <-> 1 <= i <= Z.of_nat k.
Proof.
  intros ->. rewrite in_map_iff. split.
  - intros [j [<- Hj]]. apply in_seq in Hj. lia.
  - intros Hi. exists (Z.to_nat i). split; [lia | apply in_seq; lia].
Qed.

(** With the ids 1 to [k] in the table, the next one is [k + 1]. *)
Lemma new_rowid_count_up random (t : list Row) k :
  rowids t = map Z.of_nat (seq 1 k) ->
  Z.of_nat k < MAX_ROWID ->
  new_rowid random t = Some (Z.of_nat (S k)).
Proof.
  intros Hids Hk. unfold new_rowid. destruct t as [|r t].
  - destruct k; [reflexivity | discriminate].
  - assert (Hmax : max_rowid (r :: t) = Z.of_nat k).
    { pose proof (max_rowid_In (r :: t)) as Hin.
      apply (counted_rowids_In _ k) in Hin; [|assumption|discriminate].
      assert (Hk1 : In (Z.of_nat k) (rowids (r :: t))) by
        (apply (counted_rowids_In _ k); [assumption | lia]).
      apply max_rowid_bound in Hk1. lia. }
    revert Hmax. generalize (r :: t) as t0. intros t0 Hmax. cbv zeta.
    rewrite Hmax. destruct (Z.ltb_spec (Z.of_nat k) MAX_ROWID); [|lia].
    f_equal. lia.
Qed.

Lemma run_counts_up trace :
  forall db k,
    rowids db = map Z.of_nat (seq 1 k) ->
    Forall (fun step => no_delete (snd step)) trace ->
    Z.of_nat (k + List.length trace) < MAX_ROWID ->
    exists m, (k <= m <= k + List.length trace)%nat /\
              rowids (run trace db) = map Z.of_nat (seq 1 m).
Proof.
  induction trace as [|[env req] trace IH]; intros db k Hids Hnd Hlen.
  - exists k. simpl. split; [lia | assumption].
  - inversion Hnd as [|? ? Hreq Hnd']; subst. simpl in Hreq. simpl run.
    change (List.length ((env, req) :: trace)) with (S (List.length trace))
      in *.
    assert (Hstep : rowids (snd (serve env req db)) = map Z.of_nat (seq 1 k)
                    \/ rowids (snd (serve env req db))
                       = map Z.of_nat (seq 1 (S k))).
    { destruct req as [n | n form | | n]; [now left | | now left | contradiction].
      destruct (serve_create_cases env n form db)
        as [[i [c [o [_ [_ [Hnew ->]]]]]] | [e ->]]; [right | now left].
      rewrite (new_rowid_count_up _ _ k Hids) in Hnew by lia.
      injection Hnew as <-. simpl snd.
      rewrite insert_row_last.
      - unfold rowids in *. rewrite map_app, Hids, seq_S, map_app. reflexivity.
      - intros x Hx. simpl.
        assert (Hin : In (row_id x) (rowids db)) by
          (unfold rowids; now apply in_map).
        apply (counted_rowids_In _ k) in Hin; [lia | assumption]. }
    destruct Hstep as [Hsame | Hnext].
    + assert (Hlen' : Z.of_nat (k + List.length trace) < MAX_ROWID) by lia.
      destruct (IH _ k Hsame Hnd' Hlen') as [m [Hm Hrun]].
      exists m. split; [lia | assumption].
    + assert (Hlen' : Z.of_nat (S k + List.length trace) < MAX_ROWID) by lia.
      destruct (IH _ (S k) Hnext Hnd' Hlen') as [m [Hm Hrun]].
      exists m. split; [lia | assumption].
Qed.

(** X7.  As long as nothing is deleted the ids count up from 1: after
    any run of requests that contains no delete, started on the empty
    table, the stored ids are exactly 1, 2, ..., m, in this order, for
    some m not above the number of requests (the run being shorter than
    the largest id). *)
Theorem ids_count_up trace :
  Forall (fun step => no_delete (snd step)) trace ->
  Z.of_nat (List.length trace) < MAX_ROWID ->
  exists m, (m <= List.length trace)%nat /\
            rowids (run trace []) = map Z.of_nat (seq 1 m).
Proof.
  intros Hnd Hlen.
  destruct (run_counts_up trace [] 0%nat eq_refl Hnd Hlen) as [m [Hm Hrun]].
  exists m. split; [lia | assumption].
Qed.

Lemma ids_count_up_witness :
  exists m, (m <= 3)%nat /\
            rowids (run [(quiet, POST_order 4 alice);
                         (quiet, POST_order 4 nameless);
                         (quiet, POST_order 7 bob)] [])
            = map Z.of_nat (seq 1 m).
Proof.
  apply (ids_count_up [(quiet, POST_order 4 alice);
                       (quiet, POST_order 4 nameless);
                       (quiet, POST_order 7 bob)]).
  - repeat constructor.
  - reflexivity.
Defined.

(** ** More on deleting *)



(** X10.  For an id that fits the id column and a storage that can be
    read, a [GET /delete/i] is answered with 404 exactly when no stored
    order has the id, and with the redirect exactly when one has it and
    the commit does not fail. *)
Theorem delete_status_by_presence rn env db i :
  fits_int64 (Z.of_N i) = true ->
  (status (fst (serve_under None rn env (GET_delete i) db)) = 404 <->
   ~ In (Z.of_N i) (rowids db)) /\
  (status (fst (serve_under None rn env (GET_delete i) db)) = 302 <->
   In (Z.of_N i) (rowids db) /\ env_fault env = NoFault).
Proof.
  intros Hi. rewrite serve_under_delete.
  destruct (serve_delete_cases env i db)
    as [[_ [Hin [Hf ->]]] | [[_ [Hnot ->]] | [[Hi' | [Hin Hf]] [r [Hr ->]]]]];
    simpl.
  - split; split; try discriminate; tauto.
  - split; split; try discriminate; tauto.
  - congruence.
  - rewrite Hr. split; split; try discriminate; tauto.
Qed.

Lemma delete_status_by_presence_witness :
  (status (fst (serve_under None None quiet (GET_delete 2) [alice_row])) = 404
   <-> ~ In (Z.of_N 2) (rowids [alice_row])) /\
  (status (fst (serve_under None None quiet (GET_delete 2) [alice_row])) = 302
   <-> In (Z.of_N 2) (rowids [alice_row]) /\ env_fault quiet = NoFault).
Proof.
  apply (delete_status_by_presence None quiet [alice_row] 2%N). reflexivity.
Defined.

Lemma serve_delete_table env i db :
  reachable db ->
  env_fault env = NoFault ->
  snd (serve env (GET_delete i) db)
  = filter (fun r => negb (row_id r =? Z.of_N i)) db.
Proof.
  intros Hreach Hf.
  destruct (serve_delete_cases env i db)
    as [[_ [_ [_ ->]]] | [[_ [Hnot ->]] | [[Hi | [_ Hf']] [r [_ ->]]]]];
    simpl; try reflexivity; try contradiction.
  - symmetry. now apply filter_absent.
  - symmetry. apply filter_absent. intros Hin.
    destruct (reachable_table_ok _ Hreach) as [Hall _].
    unfold rowids in Hin. apply in_map_iff in Hin as [x [Hx Hin]].
    rewrite Forall_forall in Hall. destruct (Hall x Hin) as [Hrange _].
    assert (fits_int64 (Z.of_N i) = true)
      by (apply fits_int64_spec; unfold MAX_ROWID in *; lia).
    congruence.
Qed.

Lemma filter_swap {A : Type} (p q : A -> bool) (l : list A) :
  filter p (filter q l) = filter q (filter p l).
Proof.
  induction l as [|x l IH]; simpl; [reflexivity|].
  destruct (p x) eqn:Hp, (q x) eqn:Hq; simpl; rewrite ?Hp, ?Hq, IH;
    reflexivity.
Qed.

(** X11.  Deletes commute: on a table the application produced and with
    the storage working, deleting [i] and then [j] leaves the same table
    as deleting [j] and then [i], whether or not the ids are stored. *)
Theorem deletes_commute env1 env2 db i j :
  reachable db ->
  env_fault env1 = NoFault ->
  env_fault env2 = NoFault ->
  run [(env1, GET_delete i); (env2, GET_delete j)] db =
  run [(env2, GET_delete j); (env1, GET_delete i)] db.
Proof.
  intros Hreach Hf1 Hf2. simpl.
  rewrite (serve_delete_table env2 j _ (reachable_serve _ env1 _ Hreach) Hf2).
  rewrite (serve_delete_table env1 i _ (reachable_serve _ env2 _ Hreach) Hf1).
  rewrite (serve_delete_table env1 i _ Hreach Hf1).
  rewrite (serve_delete_table env2 j _ Hreach Hf2).
  apply filter_swap.
Qed.

Lemma deletes_commute_witness :
  run [(quiet, GET_delete 1); (quiet, GET_delete 2)] [alice_row] =
  run [(quiet, GET_delete 2); (quiet, GET_delete 1)] [alice_row].
Proof.
  apply (deletes_commute quiet quiet [alice_row] 1%N 2%N).
  - exact (reachable_serve [] quiet (POST_order 4 alice) reachable_empty).
  - reflexivity.
  - reflexivity.
Defined.

(** ** More on creating *)

(** X12.  A table number that does not fit the column is never stored:
    the request is answered with 500 and the table is as before; unless
    the storage fails first, the message is the one of the failed
    binding. *)
Theorem unstorable_table_number env db n form :
  fits_int64 (Z.of_N n) = false ->
  snd (serve env (POST_order n form) db) = db /\
  status (fst (serve env (POST_order n form) db)) = 500 /\
  ((forall m, env_fault env <> FaultAtWrite m) ->
   body (fst (serve env (POST_order n form) db)) =
   Text ("Error placing order: " ++ overflow_msg)%string).
Proof.
  intros Hn. unfold serve, dispatch. rewrite place_order_run.
  unfold insert_commit, new_order, sql_insert, bind_opt_int, bind_int.
  simpl. rewrite Hn.
  destruct (env_fault env) as [|m|m]; simpl; repeat split.
  intros H. now contradiction (H m).
Qed.

Lemma unstorable_table_number_witness :
  snd (serve quiet (POST_order 9223372036854775808 alice) []) = [] /\
  status (fst (serve quiet (POST_order 9223372036854775808 alice) [])) = 500 /\
  ((forall m, env_fault quiet <> FaultAtWrite m) ->
   body (fst (serve quiet (POST_order 9223372036854775808 alice) [])) =
   Text ("Error placing order: " ++ overflow_msg)%string).
Proof.
  apply (unstorable_table_number quiet [] 9223372036854775808%N alice).
  reflexivity.
Defined.

Lemma form_get_app key (form more : list (string * string)) :
  form_get key (form ++ more) =
  match form_get key form with
  | Some v => Some v
  | None => form_get key more
  end.
Proof.
  induction form as [|[k v] form IH]; simpl; [reflexivity|].
  destruct (String.eqb key k); [reflexivity | assumption].
Qed.

Lemma form_get_unread key (extra : list (string * string)) :
  Forall unread_field extra ->
  key = "customer_name" \/ key = "order_summary" ->
  form_get key extra = None.
Proof.
  induction 1 as [|[k v] extra [H1 H2] _ IH]; simpl; intros Hkey;
    [reflexivity|].
  simpl in H1, H2.
  destruct (String.eqb_spec key k) as [-> | _]; [|now apply IH].
  destruct Hkey; congruence.
Qed.

Lemma place_order_reads_two_fields env n form form' db :
  form_get "customer_name" form' = form_get "customer_name" form ->
  form_get "order_summary" form' = form_get "order_summary" form ->
  serve env (POST_order n form') db = serve env (POST_order n form) db.
Proof.
  intros Hc Ho. unfold serve, dispatch, place_order. now rewrite Hc, Ho.
Qed.

(** X13.  Form fields other than [customer_name] and [order_summary]
    play no role: adding any such fields, before or after the others,
    changes neither the answer to a [POST /order/n] nor the table it
    leaves. *)
Theorem unread_fields_ignored env db n form extra :
  Forall unread_field extra ->
  serve env (POST_order n (extra ++ form)) db
  = serve env (POST_order n form) db /\
  serve env (POST_order n (form ++ extra)) db
  = serve env (POST_order n form) db.
Proof.
  intros Hextra.
  split; apply place_order_reads_two_fields; rewrite form_get_app;
    rewrite ?(form_get_unread _ extra Hextra) by auto;
    try reflexivity;
    match goal with |- context [form_get ?k form] =>
      now destruct (form_get k form) end.
Qed.

Lemma unread_fields_ignored_witness :
  serve quiet (POST_order 4 ([("csrf_token", "x")] ++ alice)) []
  = serve quiet (POST_order 4 alice) [] /\
  serve quiet (POST_order 4 (alice ++ [("csrf_token", "x")])) []
  = serve quiet (POST_order 4 alice) [].
Proof.
  apply (unread_fields_ignored quiet [] 4%N alice [("csrf_token", "x")]).
  repeat constructor; discriminate.
Defined.

(** X14.  Of a field sent more than once the first value counts: when
    the form carries both fields, whatever follows it in the request
    changes neither the answer nor the table. *)
Theorem first_value_wins env db n form more :
  form_get "customer_name" form <> None ->
  form_get "order_summary" form <> None ->
  serve env (POST_order n (form ++ more)) db
  = serve env (POST_order n form) db.
Proof.
  intros Hc Ho. apply place_order_reads_two_fields; rewrite form_get_app.
  - now destruct (form_get "customer_name" form).
  - now destruct (form_get "order_summary" form).
Qed.

Lemma first_value_wins_witness :
  serve quiet (POST_order 4 (alice ++ bob)) []
  = serve quiet (POST_order 4 alice) [].
Proof.
  apply (first_value_wins quiet [] 4%N alice bob); discriminate.
Defined.

(** ** Stored orders over time *)

(** X15.  No request alters a stored order: an order listed after a
    request under an id that was in use before the request is one of the
    orders listed before it, with the same customer name, table number
    and order text. *)
Theorem stored_orders_never_change env req db o :
  In o (list_all (snd (serve env req db))) ->
  In (id o) (map id (list_all db)) ->
  In o (list_all db).
Proof.
  destruct req as [n | n form | | n]; try (intros H _; exact H).
  - destruct (serve_create_cases env n form db)
      as [[i [c [o' [_ [_ [Hnew ->]]]]]] | [e ->]]; [|intros H _; exact H].
    apply new_rowid_fresh in Hnew as [Hfresh _].
    simpl snd. rewrite !list_all_eq, ids_list_all.
    intros Hin Hid. apply in_map_iff in Hin as [x [<- Hx]].
    apply insert_row_In in Hx as [-> | Hx]; [|now apply in_map].
    exfalso. simpl in Hid. apply in_map_iff in Hid as [j [[= ->] Hj]].
    contradiction.
  - destruct (serve_delete_cases env n db)
      as [[_ [_ [_ ->]]] | [[_ [_ ->]] | [_ [r [_ ->]]]]];
      try (intros H _; exact H).
    simpl snd. rewrite !list_all_eq. intros Hin _.
    apply in_map_iff in Hin as [x [<- Hx]]. apply in_map.
    now apply filter_In in Hx as [Hx _].
Qed.

Lemma stored_orders_never_change_witness :
  In (Order_of_row alice_row) (list_all [alice_row]).
Proof.
  apply (stored_orders_never_change quiet (POST_order 7 bob) [alice_row]
           (Order_of_row alice_row)).
  - simpl. left. reflexivity.
  - simpl. left. reflexivity.
Defined.

Lemma kitchen_page env db :
  serve env GET_kitchen db =
  (render_template "kitchen.html"
     [("orders", TDicts (map kitchen_record db))], db).
Proof.
  unfold serve, dispatch, kitchen, bind, query_all, ret.
  change (visible (request_world db)) with db. simpl.
  rewrite map_map. reflexivity.
Qed.

(** X16.  What is submitted shows up in the kitchen: after a
    [POST /order/n] answered with 200, the kitchen view carries one
    record more than there were orders, and among its records is the one
    with the submitted customer name, the table number of the path, the
    submitted order text and an id no order had before. *)
Theorem created_order_in_kitchen env env' db n form r db1 :
  serve env (POST_order n form) db = (r, db1) ->
  status r = 200 ->
  exists i c o records,
    form_get "customer_name" form = Some c /\
    form_get "order_summary" form = Some o /\
    ~ In i (rowids db) /\
    serve env' GET_kitchen db1 =
    (render_template "kitchen.html" [("orders", TDicts records)], db1) /\
    List.length records = S (List.length db) /\
    In [("id", VInt i); ("customer_name", VStr c);
        ("table_number", VInt (Z.of_N n)); ("orders", VStr o)] records.
Proof.
  intros Hs Hr.
  destruct (serve_create_success _ _ _ _ _ _ Hs Hr)
    as [i [c [o [Hc [Ho [_ [_ [Hnew [-> _]]]]]]]]].
  apply new_rowid_fresh in Hnew as [Hfresh _].
  set (row := mkRow i (Some c) (Some (Z.of_N n)) (Some o)).
  exists i, c, o, (map kitchen_record (insert_row row db)).
  repeat split; try assumption.
  - apply kitchen_page.
  - rewrite length_map, (Permutation_length (insert_row_perm row db)).
    reflexivity.
  - change [("id", VInt i); ("customer_name", VStr c);
            ("table_number", VInt (Z.of_N n)); ("orders", VStr o)]
      with (kitchen_record row).
    apply in_map. apply insert_row_In. now left.
Qed.

Lemma created_order_in_kitchen_witness :
  exists i c o records,
    form_get "customer_name" alice = Some c /\
    form_get "order_summary" alice = Some o /\
    ~ In i (rowids []) /\
    serve failing GET_kitchen [alice_row] =
    (render_template "kitchen.html" [("orders", TDicts records)],
     [alice_row]) /\
    List.length records = S (List.length (@nil Row)) /\
    In [("id", VInt i); ("customer_name", VStr c);
        ("table_number", VInt (Z.of_N 4)); ("orders", VStr o)] records.
Proof.
  apply (created_order_in_kitchen quiet failing [] 4%N alice
           (order_summary_page "Alice" 4 "2x burger") [alice_row]);
    reflexivity.
Defined.
